(** * Quiz presenter: session logic of the two App variants

    A shallow embedding of the logic shared by the two versions of the quiz
    view ([part_000]: a footer image is drawn when an answer is picked;
    [part_001]: a background is drawn for every question when the list is
    shuffled) and of the handlers in which they differ.

    Conventions of the embedding:
    - a JavaScript string is the list of its UTF-16 code units;
    - an array is a list; where the code writes into an array the array lives
      in a store and is addressed by a location;
    - [Math.random()] reads the next element of a supply of draws;
    - [fetch] is a function from the requested location to what the network
      does with the request;
    - a React state variable is a record field, a handler maps the record of
      the render it was created in to the record of the next render;
    - indices and lengths are natural numbers, and a list stands for an array
      of any length;
    - parsed JSON has the declared type, up to fields that are absent. *)

From Stdlib Require Import NArith String Ascii.
From stdpp Require Import base option list gmap.

Local Open Scope N_scope.

(** ** Strings *)

Abbreviation jsstring := (list N).

(** A literal written in ASCII, as code units. *)
Definition js (s : string) : jsstring :=
  map N_of_ascii (list_ascii_of_string s).

(** WhiteSpace and LineTerminator of ECMAScript, the code units that
    [String.prototype.trim] strips (all of them are in the basic plane). *)
Definition isWhiteSpace (c : N) : bool :=
  (c =? 9) || (c =? 10) || (c =? 11) || (c =? 12) || (c =? 13) || (c =? 32)
  || (c =? 160) || (c =? 5760) || ((8192 <=? c) && (c <=? 8202))
  || (c =? 8232) || (c =? 8233) || (c =? 8239) || (c =? 8287)
  || (c =? 12288) || (c =? 65279).

Fixpoint trimStart (s : jsstring) : jsstring :=
  match s with
  | [] => []
  | c :: rest => if isWhiteSpace c then trimStart rest else s
  end.

Definition trimEnd (s : jsstring) : jsstring := rev (trimStart (rev s)).

Definition trim (s : jsstring) : jsstring := trimEnd (trimStart s).

(** Truthiness of a string: every string but the empty one. *)
Definition truthy (s : jsstring) : bool :=
  match s with [] => false | _ :: _ => true end.

(** ** Question records *)

(** What the JSON file may hold: every field can be absent ([undefined] or
    [null], which [?.] and [??] do not tell apart). *)
Record RawOption := {
  raw_text : option jsstring;
  raw_right : option bool
}.

Record RawQuestion := {
  raw_question : option jsstring;
  raw_options : option (list RawOption)
}.

(** The declared types [QuestionOption] and [Question]; [right] stays
    optional. *)
Record QuestionOption := {
  text : jsstring;
  right : option bool
}.

Record Question := {
  question : jsstring;
  options : list QuestionOption
}.

(** A record with every field present is a raw record too. *)
Definition rawOfOption (o : QuestionOption) : RawOption :=
  {| raw_text := Some (text o); raw_right := right o |}.

Definition rawOfQuestion (q : Question) : RawQuestion :=
  {| raw_question := Some (question q);
     raw_options := Some (map rawOfOption (options q)) |}.

(** ** normalizeQuestions *)

(** [option.text?.trim() ?? ""] and [right: option.right]. *)
Definition normalizeOption (option : RawOption) : QuestionOption :=
  {| text := match raw_text option with Some t => trim t | None => [] end;
     right := raw_right option |}.

(** The callback of [raw.map]. *)
Definition normalizeEntry (entry : RawQuestion) : Question :=
  {| question :=
       match raw_question entry with Some q => trim q | None => [] end;
     options :=
       match raw_options entry with
       | Some opts => map normalizeOption opts
       | None => []
       end |}.

(** The callback of [.filter]:
    [entry.question && entry.options.length === 4]. *)
Definition keepEntry (entry : Question) : bool :=
  truthy (question entry) && Nat.eqb (length (options entry)) 4.

Definition normalizeQuestions (raw : list RawQuestion) : list Question :=
  List.filter keepEntry (map normalizeEntry raw).

(** The Normalizer as the specification words it: a record is valid when its
    trimmed prompt is not empty and it has exactly four options (none when
    the field is missing); the valid records are kept in their order, with
    the prompt and every option text trimmed. *)
Definition specPrompt (r : RawQuestion) : jsstring :=
  trim (default [] (raw_question r)).

Definition specOptions (r : RawQuestion) : list RawOption :=
  default [] (raw_options r).

Definition specValid (r : RawQuestion) : bool :=
  negb (Nat.eqb (length (specPrompt r)) 0)
  && Nat.eqb (length (specOptions r)) 4.

Definition specRecord (r : RawQuestion) : Question :=
  {| question := specPrompt r;
     options :=
       map (fun o => {| text := trim (default [] (raw_text o));
                        right := raw_right o |})
           (specOptions r) |}.

Fixpoint normalize_spec (raw : list RawQuestion) : list Question :=
  match raw with
  | [] => []
  | r :: rest =>
      if specValid r then specRecord r :: normalize_spec rest
      else normalize_spec rest
  end.

(** A record that normalization has nothing left to do on. *)
Definition isNormal (q : Question) : Prop :=
  trim (question q) = question q
  /\ Forall (fun o => trim (text o) = text o) (options q).

(** ** Math.random *)

(** The supply of draws still to come. A draw [k] stands for the number
    [k / 2^53] of the unit interval; a draw outside the range is reduced into
    it, an exhausted supply keeps drawing 0. *)
Abbreviation rng := (list N).

Definition mathRandom (g : rng) : N * rng :=
  match g with
  | [] => (0, [])
  | k :: g' => (k mod 2 ^ 53, g')
  end.

(** [Math.floor(Math.random() * n)], the product taken exactly. (The
    rounded product of the code is below [n] as well; which index a given
    draw selects plays no role in what is proved here, only that the index
    is one of [0 .. n-1].) *)
Definition randomIndex (n : nat) (g : rng) : nat * rng :=
  let '(u, g') := mathRandom g in
  (N.to_nat (u * N.of_nat n / 2 ^ 53), g').

(** ** shuffle *)

Section Shuffle.
Context {T : Type}.

(** [[result[i], result[j]] = [result[j], result[i]]]: both elements are
    read, then [result[i]] and [result[j]] are written in this order.
    An index outside the array is not modelled (the result is [None]);
    [shuffle] never produces one. *)
Definition swap (i j : nat) (result : list T) : option (list T) :=
  a ← result !! i;
  b ← result !! j;
  Some (<[j:=a]> (<[i:=b]> result)).

(** The loop [for (let i = ...; i > 0; i -= 1)], entered with its counter
    at [i]. *)
Fixpoint shuffleLoop (i : nat) (g : rng) (result : list T)
  : option (list T * rng) :=
  match i with
  | O => Some (result, g)
  | S i' =>
      let '(j, g') := randomIndex (S i' + 1) g in
      result' ← swap (S i') j result;
      shuffleLoop i' g' result'
  end.

(** [shuffle] on the contents of the array. The counter starts at
    [result.length - 1]; for the empty array that is -1 in the code and 0
    here, and the loop is not entered either way. *)
Definition shuffleArray (g : rng) (items : list T) : option (list T * rng) :=
  shuffleLoop (length items - 1) g items.

(** The same with the arrays in a store: [[...items]] allocates the copy,
    every swap reads and writes the copy in place. *)
Abbreviation store := (gmap positive (list T)).

Definition allocArray (h : store) (contents : list T) : positive * store :=
  let r := fresh (dom h) in (r, <[r:=contents]> h).

Definition swapAt (r : positive) (i j : nat) (h : store) : option store :=
  arr ← h !! r;
  arr' ← swap i j arr;
  Some (<[r:=arr']> h).

Fixpoint shuffleLoopAt (r : positive) (i : nat) (g : rng) (h : store)
  : option (store * rng) :=
  match i with
  | O => Some (h, g)
  | S i' =>
      let '(j, g') := randomIndex (S i' + 1) g in
      h' ← swapAt r (S i') j h;
      shuffleLoopAt r i' g' h'
  end.

Definition shuffle (items : positive) (g : rng) (h : store)
  : option (positive * store * rng) :=
  src ← h !! items;
  let '(result, h1) := allocArray h src in
  len ← length <$> h1 !! result;
  '(h2, g') ← shuffleLoopAt result (len - 1) g h1;
  Some (result, h2, g').
End Shuffle.

(** ** loadJsonWithFallback *)

(** A thrown value: an [Error] object with its message, or something that
    is not an [Error]. *)
Inductive JsThrown :=
  | ErrorObject (message : jsstring)
  | NotAnError.

Inductive Completion (T : Type) :=
  | Returned (v : T)
  | Thrown (e : JsThrown).
Arguments Returned {T} v.
Arguments Thrown {T} e.

(** What [fetch] does with a request: the promise rejects, or it resolves
    with a response, of which the code reads [ok] and [json()]; [json()]
    yields the parsed body or throws. *)
Inductive FetchOutcome (T : Type) :=
  | fetchRejects (e : JsThrown)
  | fetchResolves (ok : bool) (json : Completion T).
Arguments fetchRejects {T} e.
Arguments fetchResolves {T} ok json.

Definition unableToLoad : jsstring := js "Unable to load JSON".

(** The result comes with the list of the locations that were requested, in
    the order of the requests. *)
Fixpoint loadJsonWithFallback {T : Type}
    (fetch : jsstring -> FetchOutcome T) (sources : list jsstring)
  : list jsstring * Completion T :=
  match sources with
  | [] => ([], Thrown (ErrorObject unableToLoad))
  | source :: rest =>
      match fetch source with
      | fetchRejects e => ([source], Thrown e)
      | fetchResolves true json => ([source], json)
      | fetchResolves false _ =>
          let '(requested, r) := loadJsonWithFallback fetch rest in
          (source :: requested, r)
      end
  end.

(** The candidate at [n] answers with success and every one before it
    answered without. *)
Definition firstOkAt {T : Type} (fetch : jsstring -> FetchOutcome T)
    (sources : list jsstring) (n : nat) (json : Completion T) : Prop :=
  (exists source, sources !! n = Some source
                  /\ fetch source = fetchResolves true json)
  /\ forall m source, (m < n)%nat -> sources !! m = Some source ->
       exists body, fetch source = fetchResolves false body.

Definition firstRejectAt {T : Type} (fetch : jsstring -> FetchOutcome T)
    (sources : list jsstring) (n : nat) (e : JsThrown) : Prop :=
  (exists source, sources !! n = Some source /\ fetch source = fetchRejects e)
  /\ forall m source, (m < n)%nat -> sources !! m = Some source ->
       exists body, fetch source = fetchResolves false body.

Definition noneOk {T : Type} (fetch : jsstring -> FetchOutcome T)
    (sources : list jsstring) : Prop :=
  forall source, source ∈ sources ->
    exists body, fetch source = fetchResolves false body.

(** A candidate succeeds when its response says ok and its body parses. *)
Definition succeeds {T : Type} (o : FetchOutcome T) : bool :=
  match o with fetchResolves true (Returned _) => true | _ => false end.

Definition failed {T : Type} (c : Completion T) : bool :=
  match c with Thrown _ => true | Returned _ => false end.

(** The fallback as the specification words it: the loader fails only if no
    candidate succeeds. *)
Definition failsOnlyIfNoneSucceed {T : Type}
    (fetch : jsstring -> FetchOutcome T) (sources : list jsstring) : Prop :=
  failed (snd (loadJsonWithFallback fetch sources)) = true ->
  forall source, source ∈ sources -> succeeds (fetch source) = false.

(** ** Backgrounds *)

(** An entry of type [string | null]; reading an array outside its bounds
    gives [undefined]. *)
Inductive Background :=
  | bgNull
  | bgUndefined
  | bgPath (path : jsstring).

(** [backgrounds[Math.floor(Math.random() * backgrounds.length)]]. *)
Definition pickBackground (backgrounds : list jsstring) (g : rng)
  : Background * rng :=
  let '(j, g') := randomIndex (length backgrounds) g in
  (match backgrounds !! j with Some b => bgPath b | None => bgUndefined end,
   g').

(** [Array.from({ length: count }, () => pick)]: the callback runs once per
    index, from 0 upwards. *)
Fixpoint arrayFromPicks (count : nat) (backgrounds : list jsstring) (g : rng)
  : list Background * rng :=
  match count with
  | O => ([], g)
  | S count' =>
      let '(pick, g1) := pickBackground backgrounds g in
      let '(rest, g2) := arrayFromPicks count' backgrounds g1 in
      (pick :: rest, g2)
  end.

Definition createBackgroundMap (count : nat) (backgrounds : list jsstring)
    (g : rng) : list Background * rng :=
  if Nat.eqb (length backgrounds) 0 then (replicate count bgNull, g)
  else arrayFromPicks count backgrounds g.

(** ** The App component *)

Inductive LoadState := loading | ready | error.

Definition LoadState_eqb (a b : LoadState) : bool :=
  match a, b with
  | loading, loading | ready, ready | error, error => true
  | _, _ => false
  end.

(** "Нет подходящих вопросов в файле." *)
Definition noQuestionsMessage : jsstring :=
  [1053; 1077; 1090; 32; 1087; 1086; 1076; 1093; 1086; 1076; 1103; 1097;
   1080; 1093; 32; 1074; 1086; 1087; 1088; 1086; 1089; 1086; 1074; 32; 1074;
   32; 1092; 1072; 1081; 1083; 1077; 46].

(** "Не удалось загрузить вопросы." *)
Definition loadFailedMessage : jsstring :=
  [1053; 1077; 32; 1091; 1076; 1072; 1083; 1086; 1089; 1100; 32; 1079; 1072;
   1075; 1088; 1091; 1079; 1080; 1090; 1100; 32; 1074; 1086; 1087; 1088;
   1086; 1089; 1099; 46].

(** [error instanceof Error ? error.message : "..."]. *)
Definition messageOf (e : JsThrown) : jsstring :=
  match e with
  | ErrorObject message => message
  | NotAnError => loadFailedMessage
  end.

(** [loadJsonWithFallback(BACKGROUND_SOURCES).catch(() => [])]. *)
Definition loadBackgrounds (fetchB : jsstring -> FetchOutcome (list jsstring))
    (sources : list jsstring) : list jsstring :=
  match snd (loadJsonWithFallback fetchB sources) with
  | Returned backgroundList => backgroundList
  | Thrown _ => []
  end.

(** ** The view and the events *)

(** [s.startsWith(prefix)]. *)
Fixpoint startsWith (s prefix : jsstring) {struct prefix} : bool :=
  match prefix, s with
  | [], _ => true
  | _ :: _, [] => false
  | p :: prefix', c :: s' => (c =? p) && startsWith s' prefix'
  end.

(** The template [url("...")] of the background style. *)
Definition cssUrl (url : jsstring) : jsstring :=
  [117; 114; 108; 40; 34] ++ url ++ [34; 41].

(** The three looks of an option: the class names [idle], [correct] and
    [wrong] of the code. *)
Inductive OptionStyle := idle | correct | wrong.

(** [Boolean(option.right)]. *)
Definition isCorrect (option : QuestionOption) : bool :=
  match right option with Some true => true | _ => false end.

(** The class chosen in the callback of [currentQuestion.options.map]. *)
Definition optionStyle (answered : bool) (selectedIndex : option nat)
    (index : nat) (option : QuestionOption) : OptionStyle :=
  let isSelected := bool_decide (selectedIndex = Some index) in
  let showCorrect := answered && isCorrect option in
  let showWrong := answered && isSelected && negb (isCorrect option) in
  if showCorrect then correct else if showWrong then wrong else idle.

(** What the user can do: activate option [index], the button for the next
    question, the button for a new session. *)
Inductive Event :=
  | optionClick (index : nat)
  | nextClick
  | restartClick.

(** The order of strings of [<], [<=], [>=]: by code units, a proper prefix
    coming first. *)
Fixpoint jsLt (a b : jsstring) : bool :=
  match a, b with
  | _, [] => false
  | [], _ :: _ => true
  | x :: a', y :: b' =>
      if x <? y then true else if y <? x then false else jsLt a' b'
  end.

(** The element a key event is aimed at, as far as the handler looks at
    it; [None] for [null]. *)
Record EventTarget := {
  tagName : jsstring;
  isContentEditable : bool
}.

Definition isEditable (target : option EventTarget) : bool :=
  match target with
  | None => false
  | Some t =>
      bool_decide (tagName t = js "INPUT")
      || bool_decide (tagName t = js "TEXTAREA")
      || isContentEditable t
  end.

(** [event.key >= "1" && event.key <= "4"]. *)
Definition keyInRange (key : jsstring) : bool :=
  negb (jsLt key (js "1")) && negb (jsLt (js "4") key).

(** Whether [handleKeyDown] takes the key, that is, calls [preventDefault]
    and [handleOptionClick]. *)
Definition keyConsumed (target : option EventTarget) (key : jsstring) : bool :=
  negb (isEditable target) && keyInRange key.

(** The variant that draws a footer image when an answer is picked. *)
Module Part000.

Definition QUESTION_SOURCES : list jsstring :=
  [js "./questions.json"; js "/questions.json"].
Definition BACKGROUND_SOURCES : list jsstring :=
  [js "./backgrounds/index.json"; js "/backgrounds/index.json"].

Record App := {
  state : LoadState;
  questions : list Question;
  backgrounds : list jsstring;
  currentIndex : nat;
  selectedIndex : option nat;
  errorMessage : jsstring;
  answerFooterImage : Background
}.

Definition initial : App :=
  {| state := loading; questions := []; backgrounds := [];
     currentIndex := 0; selectedIndex := None; errorMessage := [];
     answerFooterImage := bgNull |}.

Definition currentQuestion (s : App) : option Question :=
  questions s !! currentIndex s.
Definition total (s : App) : nat := length (questions s).
Definition answered (s : App) : bool := bool_decide (selectedIndex s <> None).
Definition isFinished (s : App) : bool :=
  LoadState_eqb (state s) ready && Nat.leb (total s) (currentIndex s).

Definition load (fetchQ : jsstring -> FetchOutcome (list RawQuestion))
    (fetchB : jsstring -> FetchOutcome (list jsstring))
    (g : rng) (s : App) : option (App * rng) :=
  match snd (loadJsonWithFallback fetchQ QUESTION_SOURCES) with
  | Returned rawQuestions =>
      let backgroundList := loadBackgrounds fetchB BACKGROUND_SOURCES in
      let normalized := normalizeQuestions rawQuestions in
      '(shuffled, g') ← shuffleArray g normalized;
      Some ({| state := if Nat.eqb (length shuffled) 0 then error else ready;
               questions := shuffled;
               backgrounds := backgroundList;
               currentIndex := currentIndex s;
               selectedIndex := selectedIndex s;
               errorMessage :=
                 if Nat.eqb (length shuffled) 0 then noQuestionsMessage
                 else errorMessage s;
               answerFooterImage := answerFooterImage s |}, g')
  | Thrown e =>
      Some ({| state := error;
               questions := questions s;
               backgrounds := backgrounds s;
               currentIndex := currentIndex s;
               selectedIndex := selectedIndex s;
               errorMessage := messageOf e;
               answerFooterImage := answerFooterImage s |}, g)
  end.

Definition handleOptionClick (index : nat) (g : rng) (s : App) : App * rng :=
  if answered s || negb (bool_decide (is_Some (currentQuestion s)))
  then (s, g)
  else
    let '(image, g') :=
      if Nat.eqb (length (backgrounds s)) 0 then (bgNull, g)
      else pickBackground (backgrounds s) g in
    ({| state := state s;
        questions := questions s;
        backgrounds := backgrounds s;
        currentIndex := currentIndex s;
        selectedIndex := Some index;
        errorMessage := errorMessage s;
        answerFooterImage := image |}, g').

Definition handleNext (s : App) : App :=
  if Nat.leb (total s) (currentIndex s + 1)
  then {| state := state s;
          questions := questions s;
          backgrounds := backgrounds s;
          currentIndex := total s;
          selectedIndex := None;
          errorMessage := errorMessage s;
          answerFooterImage := bgNull |}
  else {| state := state s;
          questions := questions s;
          backgrounds := backgrounds s;
          currentIndex := currentIndex s + 1;
          selectedIndex := None;
          errorMessage := errorMessage s;
          answerFooterImage := bgNull |}.

Definition handleRestart (g : rng) (s : App) : option (App * rng) :=
  '(shuffled, g') ← shuffleArray g (questions s);
  Some ({| state := state s;
           questions := shuffled;
           backgrounds := backgrounds s;
           currentIndex := 0;
           selectedIndex := None;
           errorMessage := errorMessage s;
           answerFooterImage := bgNull |}, g').

(** The background this variant holds for position [k]: the footer image,
    which belongs to the question on display; none for any other. *)
Definition backgroundAt (s : App) (k : nat) : Background :=
  if Nat.eqb k (currentIndex s) then answerFooterImage s else bgNull.

(** [buildBackgroundUrl]. *)
Definition buildBackgroundUrl (path : jsstring) : jsstring :=
  if startsWith path (js "/") then path
  else js "./backgrounds/" ++ path.

(** The four conditional blocks of the markup. *)
Definition showsLoading (s : App) : bool := LoadState_eqb (state s) loading.
Definition showsError (s : App) : bool := LoadState_eqb (state s) error.
Definition showsQuestion (s : App) : bool :=
  LoadState_eqb (state s) ready && negb (isFinished s)
  && bool_decide (is_Some (currentQuestion s)).
Definition showsFinished (s : App) : bool :=
  LoadState_eqb (state s) ready && isFinished s.

(** The looks of the options of the question on display. *)
Definition optionStyles (s : App) : list OptionStyle :=
  match currentQuestion s with
  | Some q => imap (optionStyle (answered s) (selectedIndex s)) (options q)
  | None => []
  end.

(** The source of the footer image, when the image is rendered:
    [answered && answerFooterImage && <img src=... />], inside the block of
    the question. *)
Definition footerImageSrc (s : App) : option jsstring :=
  if showsQuestion s && answered s then
    match answerFooterImage s with
    | bgPath p => if truthy p then Some (buildBackgroundUrl p) else None
    | _ => None
    end
  else None.

(** The handler an event runs. *)
Definition handle (e : Event) (g : rng) (s : App) : option (App * rng) :=
  match e with
  | optionClick index => Some (handleOptionClick index g s)
  | nextClick => Some (handleNext s, g)
  | restartClick => handleRestart g s
  end.

(** A sequence of events, each handled in the state the one before left. *)
Fixpoint session (events : list Event) (g : rng) (s : App)
  : option (App * rng) :=
  match events with
  | [] => Some (s, g)
  | e :: rest => '(s', g') ← handle e g s; session rest g' s'
  end.

End Part000.

(** The variant that draws a background for every question when the list is
    shuffled. *)
Module Part001.

Definition QUESTION_SOURCES : list jsstring :=
  [js "/files/questions.json"; js "/questions.json"].
Definition BACKGROUND_SOURCES : list jsstring :=
  [js "/files/backgrounds/index.json"; js "/backgrounds/index.json"].

Record App := {
  state : LoadState;
  questions : list Question;
  backgrounds : list jsstring;
  backgroundMap : list Background;
  currentIndex : nat;
  selectedIndex : option nat;
  errorMessage : jsstring
}.

Definition initial : App :=
  {| state := loading; questions := []; backgrounds := [];
     backgroundMap := []; currentIndex := 0; selectedIndex := None;
     errorMessage := [] |}.

Definition currentQuestion (s : App) : option Question :=
  questions s !! currentIndex s.
Definition total (s : App) : nat := length (questions s).
Definition answered (s : App) : bool := bool_decide (selectedIndex s <> None).
Definition isFinished (s : App) : bool :=
  LoadState_eqb (state s) ready && Nat.leb (total s) (currentIndex s).

Definition load (fetchQ : jsstring -> FetchOutcome (list RawQuestion))
    (fetchB : jsstring -> FetchOutcome (list jsstring))
    (g : rng) (s : App) : option (App * rng) :=
  match snd (loadJsonWithFallback fetchQ QUESTION_SOURCES) with
  | Returned rawQuestions =>
      let backgroundList := loadBackgrounds fetchB BACKGROUND_SOURCES in
      let normalized := normalizeQuestions rawQuestions in
      '(shuffled, g1) ← shuffleArray g normalized;
      let '(bgMap, g2) :=
        createBackgroundMap (length shuffled) backgroundList g1 in
      Some ({| state := if Nat.eqb (length shuffled) 0 then error else ready;
               questions := shuffled;
               backgrounds := backgroundList;
               backgroundMap := bgMap;
               currentIndex := currentIndex s;
               selectedIndex := selectedIndex s;
               errorMessage :=
                 if Nat.eqb (length shuffled) 0 then noQuestionsMessage
                 else errorMessage s |}, g2)
  | Thrown e =>
      Some ({| state := error;
               questions := questions s;
               backgrounds := backgrounds s;
               backgroundMap := backgroundMap s;
               currentIndex := currentIndex s;
               selectedIndex := selectedIndex s;
               errorMessage := messageOf e |}, g)
  end.

Definition handleOptionClick (index : nat) (s : App) : App :=
  if answered s || negb (bool_decide (is_Some (currentQuestion s)))
  then s
  else {| state := state s;
          questions := questions s;
          backgrounds := backgrounds s;
          backgroundMap := backgroundMap s;
          currentIndex := currentIndex s;
          selectedIndex := Some index;
          errorMessage := errorMessage s |}.

Definition handleNext (s : App) : App :=
  if Nat.leb (total s) (currentIndex s + 1)
  then {| state := state s;
          questions := questions s;
          backgrounds := backgrounds s;
          backgroundMap := backgroundMap s;
          currentIndex := total s;
          selectedIndex := None;
          errorMessage := errorMessage s |}
  else {| state := state s;
          questions := questions s;
          backgrounds := backgrounds s;
          backgroundMap := backgroundMap s;
          currentIndex := currentIndex s + 1;
          selectedIndex := None;
          errorMessage := errorMessage s |}.

Definition handleRestart (g : rng) (s : App) : option (App * rng) :=
  '(shuffled, g1) ← shuffleArray g (questions s);
  let '(bgMap, g2) :=
    createBackgroundMap (length shuffled) (backgrounds s) g1 in
  Some ({| state := state s;
           questions := shuffled;
           backgrounds := backgrounds s;
           backgroundMap := bgMap;
           currentIndex := 0;
           selectedIndex := None;
           errorMessage := errorMessage s |}, g2).

(** [backgroundMap[k]]. *)
Definition backgroundAt (s : App) (k : nat) : Background :=
  match backgroundMap s !! k with Some b => b | None => bgUndefined end.

(** [buildBackgroundUrl]. *)
Definition buildBackgroundUrl (path : jsstring) : jsstring :=
  if startsWith path (js "/") then path
  else js "/backgrounds/" ++ path.

(** The four conditional blocks of the markup. *)
Definition showsLoading (s : App) : bool := LoadState_eqb (state s) loading.
Definition showsError (s : App) : bool := LoadState_eqb (state s) error.
Definition showsQuestion (s : App) : bool :=
  LoadState_eqb (state s) ready && negb (isFinished s)
  && bool_decide (is_Some (currentQuestion s)).
Definition showsFinished (s : App) : bool :=
  LoadState_eqb (state s) ready && isFinished s.

(** The looks of the options of the question on display. *)
Definition optionStyles (s : App) : list OptionStyle :=
  match currentQuestion s with
  | Some q => imap (optionStyle (answered s) (selectedIndex s)) (options q)
  | None => []
  end.

(** [backgroundMap[currentIndex]] and the style computed from it:
    [undefined] for a background that is falsy. *)
Definition currentBackground (s : App) : Background :=
  backgroundAt s (currentIndex s).

Definition backgroundStyle (s : App) : option jsstring :=
  match currentBackground s with
  | bgPath p =>
      if truthy p then Some (cssUrl (buildBackgroundUrl p)) else None
  | _ => None
  end.

(** The handler an event runs. *)
Definition handle (e : Event) (g : rng) (s : App) : option (App * rng) :=
  match e with
  | optionClick index => Some (handleOptionClick index s, g)
  | nextClick => Some (handleNext s, g)
  | restartClick => handleRestart g s
  end.

(** A sequence of events, each handled in the state the one before left. *)
Fixpoint session (events : list Event) (g : rng) (s : App)
  : option (App * rng) :=
  match events with
  | [] => Some (s, g)
  | e :: rest => '(s', g') ← handle e g s; session rest g' s'
  end.

End Part001.

(** ** The transitions as the specification words them *)

(** Out of [loading]: the session is ready exactly when the loaded questions
    normalize to at least one, and then holds a permutation of them; it is
    in error, with the message of the failure, when loading the questions
    failed, and in error with the message for the missing questions when
    none is left. *)
Definition loadTransition (loaded : Completion (list RawQuestion))
    (st : LoadState) (message : jsstring) (qs : list Question) : Prop :=
  (st = ready \/ st = error)
  /\ (st = ready <->
        exists raw, loaded = Returned raw /\ normalizeQuestions raw <> [])
  /\ (forall raw, loaded = Returned raw -> qs ≡ₚ normalizeQuestions raw)
  /\ (forall e, loaded = Thrown e -> st = error /\ message = messageOf e)
  /\ (forall raw, loaded = Returned raw -> normalizeQuestions raw = [] ->
        st = error /\ message = noQuestionsMessage).

(** A background assignment [assigned] over [count] positions that was drawn
    from [pool]: nothing but [null] from an empty pool, an element of the pool
    at every position otherwise. *)
Definition drawnFromPool (pool : list jsstring) (count : nat)
    (assigned : nat -> Background) : Prop :=
  forall k, (k < count)%nat ->
    if bool_decide (pool = []) then assigned k = bgNull
    else exists b, assigned k = bgPath b /\ b ∈ pool.

(** The restart of the first variant read as the specification words it:
    a background of the pool for every position of the new run. *)
Definition restartRegenerates000 (g : rng) (s : Part000.App) : Prop :=
  exists s' g',
    Part000.handleRestart g s = Some (s', g')
    /\ drawnFromPool (Part000.backgrounds s) (Part000.total s')
         (Part000.backgroundAt s').

(** ** Sessions *)

(** White space only. *)
Definition allWhiteSpace (s : jsstring) : Prop :=
  Forall (fun c => isWhiteSpace c = true) s.

(** Neither the first nor the last code unit is white space. *)
Definition trimmed (s : jsstring) : Prop :=
  (forall c, head s = Some c -> isWhiteSpace c = false)
  /\ (forall c, last s = Some c -> isWhiteSpace c = false).

(** [whole] is [part] with white space around it. *)
Definition paddingOf (part whole : jsstring) : Prop :=
  exists pre post,
    whole = pre ++ part ++ post /\ allWhiteSpace pre /\ allWhiteSpace post.

(** An image of the session is [null] or one of the pool. *)
Definition fromPool (pool : list jsstring) (b : Background) : Prop :=
  b = bgNull \/ exists p, b = bgPath p /\ p ∈ pool.

(** The states of the first variant that a page can be in: [load] ran on the
    initial state, then the user acted. *)
Definition reachable000 (fetchQ : jsstring -> FetchOutcome (list RawQuestion))
    (fetchB : jsstring -> FetchOutcome (list jsstring)) (s : Part000.App)
  : Prop :=
  exists g s0 g0 events g',
    Part000.load fetchQ fetchB g Part000.initial = Some (s0, g0)
    /\ Part000.session events g0 s0 = Some (s, g').

Definition reachable001 (fetchQ : jsstring -> FetchOutcome (list RawQuestion))
    (fetchB : jsstring -> FetchOutcome (list jsstring)) (s : Part001.App)
  : Prop :=
  exists g s0 g0 events g',
    Part001.load fetchQ fetchB g Part001.initial = Some (s0, g0)
    /\ Part001.session events g0 s0 = Some (s, g').

(** What holds of the position, the selection and the images all along. *)
Definition invariant000 (pool : list jsstring) (s : Part000.App) : Prop :=
  Part000.backgrounds s = pool
  /\ (Part000.currentIndex s <= Part000.total s)%nat
  /\ (Part000.currentIndex s = Part000.total s ->
        Part000.selectedIndex s = None)
  /\ (Part000.selectedIndex s = None -> Part000.answerFooterImage s = bgNull)
  /\ fromPool pool (Part000.answerFooterImage s)
  /\ (Part000.state s = ready -> Part000.questions s <> []).

Definition invariant001 (pool : list jsstring) (s : Part001.App) : Prop :=
  Part001.backgrounds s = pool
  /\ (Part001.currentIndex s <= Part001.total s)%nat
  /\ (Part001.currentIndex s = Part001.total s ->
        Part001.selectedIndex s = None)
  /\ length (Part001.backgroundMap s) = Part001.total s
  /\ Forall (fromPool pool) (Part001.backgroundMap s)
  /\ (pool <> [] -> Forall (fun b => b <> bgNull) (Part001.backgroundMap s))
  /\ (Part001.state s = ready -> Part001.questions s <> []).

(** ** Sample data *)

(** A network on which the first location of the questions is missing and
    the second serves a list. *)
Definition fetchSecond (v : list nat) (source : jsstring)
  : FetchOutcome (list nat) :=
  if bool_decide (source = js "/questions.json")
  then fetchResolves true (Returned v)
  else fetchResolves false (Thrown (ErrorObject (js "Unexpected token <"))).

(** A network on which the first location answers ok with a body that is
    not JSON and the second serves a list. *)
Definition fetchBadFirst (v : list nat) (source : jsstring)
  : FetchOutcome (list nat) :=
  if bool_decide (source = js "/questions.json")
  then fetchResolves true (Returned v)
  else fetchResolves true (Thrown (ErrorObject (js "Unexpected token <"))).

(** A network on which the request to the first location fails and the
    second serves a list. *)
Definition fetchDownFirst (v : list nat) (source : jsstring)
  : FetchOutcome (list nat) :=
  if bool_decide (source = js "/questions.json")
  then fetchResolves true (Returned v)
  else fetchRejects (ErrorObject (js "Failed to fetch")).

(** A network that serves [v] at every location, one that has nothing at
    any location, and one that cannot be reached. *)
Definition serveAll {T : Type} (v : T) (source : jsstring) : FetchOutcome T :=
  fetchResolves true (Returned v).

Definition serveNone {T : Type} (source : jsstring) : FetchOutcome T :=
  fetchResolves false (Thrown (ErrorObject (js "Unexpected token <"))).

Definition unreachable {T : Type} (source : jsstring) : FetchOutcome T :=
  fetchRejects (ErrorObject (js "Failed to fetch")).

Definition sampleOption (t : string) (r : option bool) : QuestionOption :=
  {| text := js t; right := r |}.

Definition sampleQuestion (prompt : string) : Question :=
  {| question := js prompt;
     options := [sampleOption "a" (Some true); sampleOption "b" None;
                 sampleOption "c" None; sampleOption "d" None] |}.

Definition sampleRaw (prompt : string) : RawQuestion :=
  rawOfQuestion (sampleQuestion prompt).

(** A ready session of the first variant. *)
Definition session000 (qs : list Question) (pool : list jsstring)
    (position : nat) (selection : option nat) : Part000.App :=
  {| Part000.state := ready; Part000.questions := qs;
     Part000.backgrounds := pool; Part000.currentIndex := position;
     Part000.selectedIndex := selection; Part000.errorMessage := [];
     Part000.answerFooterImage := bgNull |}.

(** A ready session of the second variant. *)
Definition session001 (qs : list Question) (pool : list jsstring)
    (bgMap : list Background) (position : nat) (selection : option nat)
  : Part001.App :=
  {| Part001.state := ready; Part001.questions := qs;
     Part001.backgrounds := pool; Part001.backgroundMap := bgMap;
     Part001.currentIndex := position; Part001.selectedIndex := selection;
     Part001.errorMessage := [] |}.

(** * Properties *)

(** ** trim *)

Lemma trimStart_length (s : jsstring) :
  (length (trimStart s) <= length s)%nat.
Proof.
  induction s as [|c s IH]; simpl; [lia|].
  destruct (isWhiteSpace c); simpl; lia.
Qed.

Lemma trimStart_idem (s : jsstring) : trimStart (trimStart s) = trimStart s.
Proof.
  induction s as [|c s IH]; simpl; [done|].
  destruct (isWhiteSpace c) eqn:Hc; [done|].
  simpl. by rewrite Hc.
Qed.

(** A string that [trimStart] leaves alone is empty or starts with a code
    unit that is not white space. *)
Lemma trimStart_fixed (s : jsstring) :
  trimStart s = s ->
  s = [] \/ exists c rest, s = c :: rest /\ isWhiteSpace c = false.
Proof.
  destruct s as [|c rest]; [by left|].
  simpl. destruct (isWhiteSpace c) eqn:Hc; [|right; eauto].
  intros Heq. pose proof (trimStart_length rest) as Hlen.
  rewrite Heq in Hlen. simpl in Hlen. lia.
Qed.

Lemma trimStart_snoc (s : jsstring) (c : N) :
  isWhiteSpace c = false -> trimStart (s ++ [c]) = trimStart s ++ [c].
Proof.
  intros Hc. induction s as [|d s IH]; simpl.
  - by rewrite Hc.
  - destruct (isWhiteSpace d); [exact IH | done].
Qed.

Lemma trimEnd_cons (c : N) (rest : jsstring) :
  isWhiteSpace c = false -> trimEnd (c :: rest) = c :: trimEnd rest.
Proof.
  intros Hc. unfold trimEnd. simpl.
  rewrite trimStart_snoc by done.
  by rewrite rev_app_distr.
Qed.

Lemma trimEnd_idem (s : jsstring) : trimEnd (trimEnd s) = trimEnd s.
Proof.
  unfold trimEnd. by rewrite rev_involutive, trimStart_idem.
Qed.

Lemma trimStart_trimEnd (s : jsstring) :
  trimStart s = s -> trimStart (trimEnd s) = trimEnd s.
Proof.
  intros Hs. destruct (trimStart_fixed s Hs) as [->|(c & rest & -> & Hc)].
  - done.
  - rewrite trimEnd_cons by done. simpl. by rewrite Hc.
Qed.

Lemma trim_idem (s : jsstring) : trim (trim s) = trim s.
Proof.
  unfold trim.
  rewrite (trimStart_trimEnd (trimStart s)) by apply trimStart_idem.
  apply trimEnd_idem.
Qed.

Lemma truthy_length (s : jsstring) :
  truthy s = negb (Nat.eqb (length s) 0).
Proof. by destruct s. Qed.

(** ** normalizeQuestions *)

Lemma normalizeEntry_specRecord (r : RawQuestion) :
  normalizeEntry r = specRecord r.
Proof.
  unfold normalizeEntry, specRecord, specPrompt, specOptions.
  destruct r as [[q|] [opts|]]; simpl; f_equal.
  all: try (apply map_ext; intros [[t|] rt]; reflexivity).
Qed.

Lemma keepEntry_specValid (r : RawQuestion) :
  keepEntry (normalizeEntry r) = specValid r.
Proof.
  rewrite normalizeEntry_specRecord.
  unfold keepEntry, specValid, specRecord. simpl.
  by rewrite truthy_length, length_map.
Qed.

Lemma normalizeQuestions_cons (r : RawQuestion) (rest : list RawQuestion) :
  normalizeQuestions (r :: rest) =
    if specValid r then specRecord r :: normalizeQuestions rest
    else normalizeQuestions rest.
Proof.
  unfold normalizeQuestions. simpl.
  by rewrite keepEntry_specValid, normalizeEntry_specRecord.
Qed.

Lemma normalizeQuestions_refines (raw : list RawQuestion) :
  normalizeQuestions raw = normalize_spec raw.
Proof.
  induction raw as [|r rest IH]; [done|].
  rewrite normalizeQuestions_cons. simpl. by rewrite IH.
Qed.

Lemma normalizeQuestions_sublist (raw : list RawQuestion) :
  sublist (normalizeQuestions raw) (map specRecord raw).
Proof.
  induction raw as [|r rest IH]; [constructor|].
  rewrite normalizeQuestions_cons. simpl.
  destruct (specValid r); by constructor.
Qed.

Lemma normalizeQuestions_keeps (raw : list RawQuestion) (r : RawQuestion) :
  r ∈ raw -> specValid r = true -> specRecord r ∈ normalizeQuestions raw.
Proof.
  intros Hin Hv. induction Hin as [r rest|r r' rest Hin IH];
    rewrite normalizeQuestions_cons.
  - rewrite Hv. left.
  - destruct (specValid r'); [right|]; auto.
Qed.

Lemma normalizeQuestions_only_valid (raw : list RawQuestion) (q : Question) :
  q ∈ normalizeQuestions raw ->
  exists r, r ∈ raw /\ specValid r = true /\ q = specRecord r.
Proof.
  induction raw as [|r rest IH]; rewrite ?normalizeQuestions_cons.
  - intros H. by apply elem_of_nil in H.
  - destruct (specValid r) eqn:Hv.
    + intros [->|Hin]%elem_of_cons.
      * exists r. split; [left|done].
      * destruct (IH Hin) as (r0 & ? & ? & ?). exists r0. split; [by right|done].
    + intros Hin. destruct (IH Hin) as (r0 & ? & ? & ?).
      exists r0. split; [by right|done].
Qed.

(** C2: [normalizeQuestions] is the Normalizer of the specification: it
    keeps, in their order, exactly the records whose trimmed prompt is not
    empty and that have four options (a missing options field counting as
    none), with the prompt and every option text trimmed and the options in
    their order; the texts of the options play no role in the selection,
    so a record with four options whose texts are all empty after trimming
    is kept. *)
Theorem normalizeQuestions_spec (raw : list RawQuestion) :
  normalizeQuestions raw = normalize_spec raw
  /\ sublist (normalizeQuestions raw) (map specRecord raw)
  /\ (forall q, q ∈ normalizeQuestions raw <->
        exists r, r ∈ raw /\ q = specRecord r
                  /\ specPrompt r <> [] /\ length (specOptions r) = 4%nat)
  /\ (forall r, question (specRecord r) = trim (default [] (raw_question r))
        /\ map text (options (specRecord r)) =
             map (fun o => trim (default [] (raw_text o)))
                 (default [] (raw_options r))
        /\ map right (options (specRecord r)) =
             map raw_right (default [] (raw_options r)))
  /\ (forall r, r ∈ raw ->
        specPrompt r <> [] -> length (specOptions r) = 4%nat ->
        Forall (fun o => text o = []) (options (specRecord r)) ->
        specRecord r ∈ normalizeQuestions raw).
Proof.
  assert (Hvalid : forall r, specValid r = true <->
            specPrompt r <> [] /\ length (specOptions r) = 4%nat).
  { intros r. unfold specValid.
    rewrite andb_true_iff, negb_true_iff, !Nat.eqb_neq, Nat.eqb_eq.
    destruct (specPrompt r); simpl; intuition congruence. }
  split; [apply normalizeQuestions_refines|].
  split; [apply normalizeQuestions_sublist|].
  split; [|split].
  - intros q. split.
    + intros Hq. destruct (normalizeQuestions_only_valid raw q Hq)
        as (r & Hin & Hv & ->).
      apply Hvalid in Hv. exists r. tauto.
    + intros (r & Hin & -> & Hp & Hn).
      apply normalizeQuestions_keeps; [done|]. apply Hvalid. tauto.
  - intros r. unfold specRecord, specOptions. simpl.
    split; [done|]. rewrite !map_map. done.
  - intros r Hin Hp Hn _.
    apply normalizeQuestions_keeps; [done|]. apply Hvalid. tauto.
Qed.

(** A witness of [normalizeQuestions_spec]: of a record without prompt, a
    record with three options and a record with four blank options, the last
    one alone is kept. *)
Lemma normalizeQuestions_spec_witness :
  let blank := {| raw_text := Some (js "  "); raw_right := None |} in
  let r := {| raw_question := Some (js " Q1 ");
              raw_options := Some [blank; blank; blank; blank] |} in
  let raw := [ {| raw_question := None; raw_options := None |};
               {| raw_question := Some (js "Q0");
                  raw_options := Some [blank; blank; blank] |};
               r ] in
  specRecord r ∈ normalizeQuestions raw.
Proof.
  intros blank r raw.
  apply (proj2 (proj2 (proj2 (proj2 (normalizeQuestions_spec raw))))).
  - do 2 right. left.
  - vm_compute. discriminate.
  - reflexivity.
  - vm_compute. repeat constructor.
Defined.

(** ** Idempotence *)

Lemma normalizeEntry_isNormal (r : RawQuestion) : isNormal (normalizeEntry r).
Proof.
  unfold isNormal, normalizeEntry. simpl. split.
  - destruct (raw_question r); [apply trim_idem | done].
  - destruct (raw_options r) as [opts|]; [|constructor].
    apply Forall_map, Forall_forall. intros o _. unfold normalizeOption. simpl.
    destruct (raw_text o); [apply trim_idem | done].
Qed.

Lemma normalizeEntry_rawOfQuestion (q : Question) :
  isNormal q -> normalizeEntry (rawOfQuestion q) = q.
Proof.
  destruct q as [p opts]. unfold isNormal, normalizeEntry. simpl.
  intros [Hp Ho]. f_equal; [done|].
  induction Ho as [|o opts Ht _ IH]; [done|].
  simpl. rewrite IH. f_equal.
  destruct o as [t rt]. unfold normalizeOption. simpl in *. by rewrite Ht.
Qed.

Lemma normalizeQuestions_fixed (l : list Question) :
  Forall (fun q => isNormal q /\ keepEntry q = true) l ->
  normalizeQuestions (map rawOfQuestion l) = l.
Proof.
  unfold normalizeQuestions.
  induction 1 as [|q l [Hn Hk] _ IH]; [done|].
  simpl. rewrite normalizeEntry_rawOfQuestion by done.
  rewrite Hk. by rewrite IH.
Qed.

Lemma normalizeQuestions_normal (raw : list RawQuestion) :
  Forall (fun q => isNormal q /\ keepEntry q = true) (normalizeQuestions raw).
Proof.
  unfold normalizeQuestions. induction raw as [|r rest IH]; [constructor|].
  simpl. destruct (keepEntry (normalizeEntry r)) eqn:Hk; [|done].
  constructor; [|done]. split; [apply normalizeEntry_isNormal | done].
Qed.

(** C9: [normalizeQuestions] is idempotent: its output, read as raw records
    again, is normalized to itself. *)
Theorem normalizeQuestions_idempotent (raw : list RawQuestion) :
  normalizeQuestions (map rawOfQuestion (normalizeQuestions raw))
  = normalizeQuestions raw.
Proof. apply normalizeQuestions_fixed, normalizeQuestions_normal. Qed.

(** ** Math.random *)

Lemma mathRandom_unit (g : rng) : fst (mathRandom g) < 2 ^ 53.
Proof.
  destruct g as [|k g]; simpl; [done|].
  by apply N.mod_upper_bound.
Qed.

Lemma randomIndex_lt (n : nat) (g : rng) :
  (0 < n)%nat -> (fst (randomIndex n g) < n)%nat.
Proof.
  intros Hn. unfold randomIndex.
  pose proof (mathRandom_unit g) as Hu.
  destruct (mathRandom g) as [u g']. simpl in *.
  assert (u * N.of_nat n / 2 ^ 53 < N.of_nat n); [|lia].
  apply N.Div0.div_lt_upper_bound.
  apply N.mul_lt_mono_pos_r; lia.
Qed.



(** ** shuffle *)

Section ShuffleProperties.
Context {T : Type}.
Implicit Types (l src out : list T) (h : gmap positive (list T)) (g : rng).

Lemma swap_in_range i j l :
  (i < length l)%nat -> (j < length l)%nat ->
  exists l', swap i j l = Some l' /\ l' ≡ₚ l /\ length l' = length l.
Proof.
  intros Hi Hj.
  destruct (lookup_lt_is_Some_2 l i Hi) as [a Ha].
  destruct (lookup_lt_is_Some_2 l j Hj) as [b Hb].
  exists (<[j:=a]> (<[i:=b]> l)). split; [|split].
  - unfold swap. rewrite Ha, Hb. reflexivity.
  - by apply Permutation_insert_swap.
  - by rewrite !length_insert.
Qed.

Lemma shuffleLoop_succ i g l :
  shuffleLoop (S i) g l =
    result' ← swap (S i) (fst (randomIndex (S i + 1) g)) l;
    shuffleLoop i (snd (randomIndex (S i + 1) g)) result'.
Proof. simpl. by destruct (randomIndex _ g). Qed.

Lemma shuffleLoopAt_succ r i g h :
  shuffleLoopAt r (S i) g h =
    h' ← swapAt r (S i) (fst (randomIndex (S i + 1) g)) h;
    shuffleLoopAt r i (snd (randomIndex (S i + 1) g)) h'.
Proof. simpl. by destruct (randomIndex _ g). Qed.

(** The loop runs to its end and permutes the array, from any counter
    that is an index of the array. *)
Lemma shuffleLoop_perm i g l :
  (i = 0 \/ i < length l)%nat ->
  exists l' g', shuffleLoop i g l = Some (l', g') /\ l' ≡ₚ l.
Proof.
  revert g l. induction i as [|i IH]; intros g l Hi.
  - exists l, g. by split.
  - rewrite shuffleLoop_succ.
    pose proof (randomIndex_lt (S i + 1) g ltac:(lia)) as Hj.
    destruct (randomIndex (S i + 1) g) as [j g1]. cbn [fst snd] in *.
    destruct (swap_in_range (S i) j l) as (l1 & -> & Hp & Hlen); [lia..|].
    simpl. destruct (IH g1 l1) as (l' & g' & -> & Hp'); [lia|].
    exists l', g'. split; [done|]. by rewrite Hp'.
Qed.

Lemma shuffleArray_perm g l :
  exists l' g', shuffleArray g l = Some (l', g') /\ l' ≡ₚ l.
Proof.
  apply shuffleLoop_perm. destruct l; simpl; lia.
Qed.

(** The loop on the store changes the array at [r] as the loop on the
    contents does, and nothing else. *)
Lemma shuffleLoopAt_contents r i g h l :
  h !! r = Some l ->
  shuffleLoopAt r i g h =
    (fun '(l', g') => (<[r:=l']> h, g')) <$> shuffleLoop i g l.
Proof.
  revert g h l. induction i as [|i IH]; intros g h l Hr.
  - simpl. by rewrite insert_id.
  - rewrite shuffleLoopAt_succ, shuffleLoop_succ.
    destruct (randomIndex (S i + 1) g) as [j g1]. cbn [fst snd].
    unfold swapAt. rewrite Hr. simpl.
    destruct (swap (S i) j l) as [l1|]; [|done]. simpl.
    rewrite (IH g1 (<[r:=l1]> h) l1) by apply lookup_insert_eq.
    destruct (shuffleLoop i g1 l1) as [[l' g']|]; [|done].
    simpl. by rewrite insert_insert_eq.
Qed.

Lemma shuffle_contents items g h src :
  h !! items = Some src ->
  shuffle items g h =
    (fun '(l', g') => (fresh (dom h), <[fresh (dom h):=l']> h, g'))
      <$> shuffleArray g src.
Proof.
  intros Hsrc. unfold shuffle, allocArray, shuffleArray.
  rewrite Hsrc. simpl. rewrite lookup_insert_eq. simpl.
  rewrite (shuffleLoopAt_contents _ _ _ _ src) by apply lookup_insert_eq.
  destruct (shuffleLoop (length src - 1) g src) as [[l' g']|]; [|done].
  simpl. by rewrite insert_insert_eq.
Qed.

(** C4: [shuffle] returns a new array that holds a permutation of the
    input, and the input array (like every other array of the store) is
    what it was. *)
Theorem shuffle_permutation_fresh items g h src :
  h !! items = Some src ->
  exists result out h' g',
    shuffle items g h = Some (result, h', g')
    /\ h' !! result = Some out
    /\ out ≡ₚ src
    /\ length out = length src
    /\ result <> items
    /\ h !! result = None
    /\ h' !! items = Some src
    /\ (forall r, r <> result -> h' !! r = h !! r)
    /\ shuffleArray g src = Some (out, g').
Proof.
  intros Hsrc.
  destruct (shuffleArray_perm g src) as (out & g' & Hrun & Hp).
  assert (Hfresh : h !! fresh (dom h) = None).
  { apply not_elem_of_dom, is_fresh. }
  assert (Hne : fresh (dom h) <> items) by congruence.
  exists (fresh (dom h)), out, (<[fresh (dom h):=out]> h), g'.
  rewrite (shuffle_contents _ _ _ src Hsrc), Hrun. simpl.
  split; [done|]. split; [apply lookup_insert_eq|].
  split; [done|]. split; [by rewrite Hp|].
  split; [done|]. split; [done|].
  split; [by rewrite lookup_insert_ne|].
  split; [|done]. intros r Hr. by rewrite lookup_insert_ne.
Qed.
End ShuffleProperties.

(** A witness of [shuffle_permutation_fresh]: the array at location 1 is
    shuffled with three draws. *)
Lemma shuffle_permutation_fresh_witness :
  let h : gmap positive (list nat) := {[ 1%positive := [10; 20; 30; 40]%nat ]} in
  exists result out h' g',
    shuffle 1%positive [2 ^ 52; 0; 2 ^ 53 - 1] h = Some (result, h', g')
    /\ h' !! result = Some out
    /\ out ≡ₚ [10; 20; 30; 40]%nat
    /\ length out = 4%nat
    /\ result <> 1%positive
    /\ h !! result = None
    /\ h' !! 1%positive = Some [10; 20; 30; 40]%nat
    /\ (forall r, r <> result -> h' !! r = h !! r)
    /\ shuffleArray [2 ^ 52; 0; 2 ^ 53 - 1] [10; 20; 30; 40]%nat
       = Some (out, g').
Proof.
  intros h.
  apply (shuffle_permutation_fresh 1%positive [2 ^ 52; 0; 2 ^ 53 - 1] h
           [10; 20; 30; 40]%nat).
  reflexivity.
Defined.

Example shuffleArray_run :
  shuffleArray [2 ^ 52; 0; 2 ^ 53 - 1] [10; 20; 30; 40]%nat
  = Some ([40; 20; 10; 30]%nat, []).
Proof. vm_compute. reflexivity. Qed.

(** ** loadJsonWithFallback *)

Section Loader.
Context {T : Type}.
Implicit Types (fetch : jsstring -> FetchOutcome T) (sources : list jsstring).

Lemma firstOkAt_cons_no fetch source rest n json body :
  fetch source = fetchResolves false body ->
  firstOkAt fetch (source :: rest) n json ->
  exists n', n = S n' /\ firstOkAt fetch rest n' json.
Proof.
  intros Hno [(s & Hs & Hok) Hbefore]. destruct n as [|n'].
  - simpl in Hs. congruence.
  - exists n'. split; [done|]. split; [by exists s|].
    intros m s' Hm Hs'. apply (Hbefore (S m)); [lia | done].
Qed.

Lemma firstRejectAt_cons_no fetch source rest n e body :
  fetch source = fetchResolves false body ->
  firstRejectAt fetch (source :: rest) n e ->
  exists n', n = S n' /\ firstRejectAt fetch rest n' e.
Proof.
  intros Hno [(s & Hs & Hrej) Hbefore]. destruct n as [|n'].
  - simpl in Hs. congruence.
  - exists n'. split; [done|]. split; [by exists s|].
    intros m s' Hm Hs'. apply (Hbefore (S m)); [lia | done].
Qed.

(** The head of the list decides unless it answers without success. *)
Lemma first_at_decided fetch source rest n :
  (forall body, fetch source <> fetchResolves false body) ->
  (forall m s, (m < n)%nat -> (source :: rest) !! m = Some s ->
     exists body, fetch s = fetchResolves false body) ->
  n = 0%nat.
Proof.
  intros Hhead Hbefore. destruct n as [|n']; [done|].
  destruct (Hbefore 0%nat source) as [body Hb]; [lia | done |].
  by destruct (Hhead body).
Qed.

Lemma loadJsonWithFallback_first_ok fetch sources n json :
  firstOkAt fetch sources n json ->
  loadJsonWithFallback fetch sources = (take (S n) sources, json).
Proof.
  revert n. induction sources as [|source rest IH]; intros n Hn.
  - destruct Hn as [(s & Hs & _) _]. by rewrite lookup_nil in Hs.
  - simpl. destruct (fetch source) as [e|[|] body] eqn:Hf.
    + assert (n = 0%nat) as ->.
      { apply (first_at_decided fetch source rest); [congruence | apply Hn]. }
      destruct Hn as [(s & Hs & Hok) _]. simpl in Hs. congruence.
    + assert (n = 0%nat) as ->.
      { apply (first_at_decided fetch source rest); [congruence | apply Hn]. }
      destruct Hn as [(s & Hs & Hok) _]. simpl in Hs.
      injection Hs as <-. rewrite Hf in Hok. injection Hok as ->.
      by rewrite take_0.
    + destruct (firstOkAt_cons_no _ _ _ _ _ _ Hf Hn) as (n' & -> & Hn').
      by rewrite (IH n' Hn').
Qed.

Lemma loadJsonWithFallback_first_reject fetch sources n e :
  firstRejectAt fetch sources n e ->
  loadJsonWithFallback fetch sources = (take (S n) sources, Thrown e).
Proof.
  revert n. induction sources as [|source rest IH]; intros n Hn.
  - destruct Hn as [(s & Hs & _) _]. by rewrite lookup_nil in Hs.
  - simpl. destruct (fetch source) as [e'|[|] body] eqn:Hf.
    + assert (n = 0%nat) as ->.
      { apply (first_at_decided fetch source rest); [congruence | apply Hn]. }
      destruct Hn as [(s & Hs & Hrej) _]. simpl in Hs.
      injection Hs as <-. rewrite Hf in Hrej. injection Hrej as ->.
      by rewrite take_0.
    + assert (n = 0%nat) as ->.
      { apply (first_at_decided fetch source rest); [congruence | apply Hn]. }
      destruct Hn as [(s & Hs & Hrej) _]. simpl in Hs. congruence.
    + destruct (firstRejectAt_cons_no _ _ _ _ _ _ Hf Hn) as (n' & -> & Hn').
      by rewrite (IH n' Hn').
Qed.

Lemma loadJsonWithFallback_none_ok fetch sources :
  noneOk fetch sources ->
  loadJsonWithFallback fetch sources
  = (sources, Thrown (ErrorObject unableToLoad)).
Proof.
  induction sources as [|source rest IH]; intros Hnone; [done|].
  simpl. destruct (Hnone source) as [body ->]; [left|].
  rewrite IH; [done|]. intros s Hs. apply Hnone. by right.
Qed.

(** One of the three cases always applies. *)
Lemma loader_cases fetch sources :
  (exists n json, firstOkAt fetch sources n json)
  \/ (exists n e, firstRejectAt fetch sources n e)
  \/ noneOk fetch sources.
Proof.
  induction sources as [|source rest IH].
  - right; right. intros s Hs. by apply elem_of_nil in Hs.
  - destruct (fetch source) as [e|[|] body] eqn:Hf.
    + right; left. exists 0%nat, e. split; [by exists source|]. lia.
    + left. exists 0%nat, body. split; [by exists source|]. lia.
    + destruct IH as [(n & json & [Hat Hbefore])
                     |[(n & e & [Hat Hbefore])|Hnone]].
      * left. exists (S n), json. split; [done|].
        intros [|m] s Hm Hs; simpl in Hs.
        -- injection Hs as <-. eauto.
        -- apply (Hbefore m); [lia | done].
      * right; left. exists (S n), e. split; [done|].
        intros [|m] s Hm Hs; simpl in Hs.
        -- injection Hs as <-. eauto.
        -- apply (Hbefore m); [lia | done].
      * right; right. intros s [->|Hs]%elem_of_cons; eauto.
Qed.
End Loader.

(** C1 (amended): [loadJsonWithFallback] requests the candidates in order
    for as long as the answers are without success. At the first response
    that says ok it stops, and its result is the result of parsing that
    body: the parsed JSON, or the error of the parser. A request that fails
    ends the loading with its error. When every candidate answers without
    success the loader throws "Unable to load JSON", having requested them
    all. No other case exists. *)
Theorem loadJsonWithFallback_outcome {T : Type}
    (fetch : jsstring -> FetchOutcome T) (sources : list jsstring) :
  (forall n json, firstOkAt fetch sources n json ->
     loadJsonWithFallback fetch sources = (take (S n) sources, json))
  /\ (forall n e, firstRejectAt fetch sources n e ->
        loadJsonWithFallback fetch sources = (take (S n) sources, Thrown e))
  /\ (noneOk fetch sources ->
        loadJsonWithFallback fetch sources
        = (sources, Thrown (ErrorObject unableToLoad)))
  /\ ((exists n json, firstOkAt fetch sources n json)
      \/ (exists n e, firstRejectAt fetch sources n e)
      \/ noneOk fetch sources).
Proof.
  split; [apply loadJsonWithFallback_first_ok|].
  split; [apply loadJsonWithFallback_first_reject|].
  split; [apply loadJsonWithFallback_none_ok|].
  apply loader_cases.
Qed.

(** A witness of [loadJsonWithFallback_outcome]: the second candidate is the
    first to answer with success. *)
Lemma loadJsonWithFallback_outcome_witness :
  loadJsonWithFallback (fetchSecond [7%nat])
    [js "./questions.json"; js "/questions.json"]
  = ([js "./questions.json"; js "/questions.json"], Returned [7%nat]).
Proof.
  apply (proj1 (loadJsonWithFallback_outcome (fetchSecond [7%nat])
                  [js "./questions.json"; js "/questions.json"])
           1%nat (Returned [7%nat])).
  split.
  - exists (js "/questions.json"). split; reflexivity.
  - intros [|[|m]] source Hm Hsource; [|lia..].
    injection Hsource as <-. eexists. reflexivity.
Defined.

(** C1 as stated does not hold: the loader fails on the body of the first
    candidate although the second candidate succeeds. *)
Lemma loadJsonWithFallback_fails_with_good_candidate :
  ~ failsOnlyIfNoneSucceed (fetchBadFirst [7%nat])
      [js "./questions.json"; js "/questions.json"].
Proof.
  unfold failsOnlyIfNoneSucceed. intros H.
  specialize (H eq_refl (js "/questions.json")).
  assert (Hin : js "/questions.json"
                ∈ [js "./questions.json"; js "/questions.json"]).
  { right. left. }
  specialize (H Hin). vm_compute in H. discriminate.
Qed.

(** The same when the first request fails: the second candidate is never
    requested. *)
Lemma loadJsonWithFallback_stops_at_rejection :
  loadJsonWithFallback (fetchDownFirst [7%nat])
    [js "./questions.json"; js "/questions.json"]
  = ([js "./questions.json"], Thrown (ErrorObject (js "Failed to fetch")))
  /\ succeeds (fetchDownFirst [7%nat] (js "/questions.json")) = true.
Proof. split; reflexivity. Qed.

(** ** createBackgroundMap *)

Lemma pickBackground_elem (backgrounds : list jsstring) (g : rng) :
  backgrounds <> [] ->
  exists b, fst (pickBackground backgrounds g) = bgPath b /\ b ∈ backgrounds.
Proof.
  intros Hne. unfold pickBackground.
  assert (Hlen : (0 < length backgrounds)%nat).
  { destruct backgrounds; [done | simpl; lia]. }
  pose proof (randomIndex_lt (length backgrounds) g Hlen) as Hj.
  destruct (randomIndex (length backgrounds) g) as [j g']. simpl in *.
  destruct (lookup_lt_is_Some_2 backgrounds j Hj) as [b Hb].
  exists b. rewrite Hb. split; [done|]. by eapply list_elem_of_lookup_2.
Qed.

Lemma arrayFromPicks_length (count : nat) (backgrounds : list jsstring)
    (g : rng) :
  length (fst (arrayFromPicks count backgrounds g)) = count.
Proof.
  revert g. induction count as [|count IH]; intros g; [done|].
  simpl. destruct (pickBackground backgrounds g) as [pick g1].
  specialize (IH g1).
  destruct (arrayFromPicks count backgrounds g1) as [rest g2].
  simpl in *. by rewrite IH.
Qed.

Lemma arrayFromPicks_elems (count : nat) (backgrounds : list jsstring)
    (g : rng) :
  backgrounds <> [] ->
  Forall (fun e => exists b, e = bgPath b /\ b ∈ backgrounds)
         (fst (arrayFromPicks count backgrounds g)).
Proof.
  intros Hne. revert g. induction count as [|count IH]; intros g.
  - constructor.
  - simpl. pose proof (pickBackground_elem backgrounds g Hne) as Hpick.
    destruct (pickBackground backgrounds g) as [pick g1].
    specialize (IH g1).
    destruct (arrayFromPicks count backgrounds g1) as [rest g2].
    simpl in *. by constructor.
Qed.

Lemma createBackgroundMap_length (count : nat) (backgrounds : list jsstring)
    (g : rng) :
  length (fst (createBackgroundMap count backgrounds g)) = count.
Proof.
  unfold createBackgroundMap. destruct (Nat.eqb (length backgrounds) 0).
  - apply length_replicate.
  - apply arrayFromPicks_length.
Qed.

Lemma createBackgroundMap_null (count : nat) (g : rng) :
  createBackgroundMap count [] g = (replicate count bgNull, g).
Proof. reflexivity. Qed.

Lemma createBackgroundMap_elems (count : nat) (backgrounds : list jsstring)
    (g : rng) :
  backgrounds <> [] ->
  Forall (fun e => exists b, e = bgPath b /\ b ∈ backgrounds)
         (fst (createBackgroundMap count backgrounds g)).
Proof.
  intros Hne. unfold createBackgroundMap.
  destruct backgrounds as [|b0 rest]; [done|].
  change (Nat.eqb (length (b0 :: rest)) 0) with false. cbv iota.
  by apply arrayFromPicks_elems.
Qed.

(** C10: [createBackgroundMap] returns [count] entries; all of them are
    [null] when there are no backgrounds, and each of them is one of the
    backgrounds when there are some. *)
Theorem createBackgroundMap_spec (count : nat) (backgrounds : list jsstring)
    (g : rng) :
  length (fst (createBackgroundMap count backgrounds g)) = count
  /\ (backgrounds = [] ->
        Forall (fun e => e = bgNull)
               (fst (createBackgroundMap count backgrounds g)))
  /\ (backgrounds <> [] ->
        Forall (fun e => exists b, e = bgPath b /\ b ∈ backgrounds)
               (fst (createBackgroundMap count backgrounds g))).
Proof.
  split; [apply createBackgroundMap_length|]. split.
  - intros ->. rewrite createBackgroundMap_null. simpl.
    apply Forall_forall. intros e He.
    by apply elem_of_replicate in He as [-> _].
  - apply createBackgroundMap_elems.
Qed.

(** A witness of [createBackgroundMap_spec], with two backgrounds and three
    questions. *)
Lemma createBackgroundMap_spec_witness :
  Forall (fun e => exists b, e = bgPath b /\ b ∈ [js "a.png"; js "/b.png"])
         (fst (createBackgroundMap 3 [js "a.png"; js "/b.png"]
                 [2 ^ 52; 1; 2 ^ 53 - 1])).
Proof.
  apply (proj2 (proj2 (createBackgroundMap_spec 3 [js "a.png"; js "/b.png"]
                         [2 ^ 52; 1; 2 ^ 53 - 1]))).
  discriminate.
Defined.

Example createBackgroundMap_run :
  createBackgroundMap 3 [js "a.png"; js "/b.png"] [2 ^ 52; 1; 2 ^ 53 - 1]
  = ([bgPath (js "/b.png"); bgPath (js "a.png"); bgPath (js "/b.png")], []).
Proof. vm_compute. reflexivity. Qed.

Example createBackgroundMap_empty :
  createBackgroundMap 2 [] [5] = ([bgNull; bgNull], [5]).
Proof. reflexivity. Qed.

(** ** The handlers *)

Lemma LoadState_eqb_eq (a b : LoadState) : LoadState_eqb a b = true <-> a = b.
Proof. destruct a, b; simpl; split; congruence. Qed.

Lemma Part000_handleNext (s : Part000.App) :
  Part000.state s = ready ->
  Part000.isFinished s = false ->
  ((Part000.currentIndex s + 1 < Part000.total s)%nat ->
     Part000.currentIndex (Part000.handleNext s) = (Part000.currentIndex s + 1)%nat
     /\ Part000.selectedIndex (Part000.handleNext s) = None
     /\ Part000.isFinished (Part000.handleNext s) = false)
  /\ ((Part000.total s <= Part000.currentIndex s + 1)%nat ->
        Part000.currentIndex (Part000.handleNext s) = Part000.total s
        /\ Part000.selectedIndex (Part000.handleNext s) = None
        /\ Part000.isFinished (Part000.handleNext s) = true)
  /\ Part000.questions (Part000.handleNext s) = Part000.questions s
  /\ Part000.state (Part000.handleNext s) = ready.
Proof.
  intros Hready _. unfold Part000.handleNext.
  destruct (Nat.leb_spec (Part000.total s) (Part000.currentIndex s + 1))
    as [Hle|Hlt].
  - unfold Part000.isFinished, Part000.total in *. simpl. rewrite Hready.
    split; [lia|]. split; [|done]. intros _.
    split; [done|]. split; [done|]. simpl. by apply Nat.leb_le.
  - unfold Part000.isFinished, Part000.total in *. simpl. rewrite Hready.
    split; [|split; [lia | done]]. intros _.
    split; [done|]. split; [done|]. simpl. apply Nat.leb_gt. lia.
Qed.

Lemma Part001_handleNext (s : Part001.App) :
  Part001.state s = ready ->
  Part001.isFinished s = false ->
  ((Part001.currentIndex s + 1 < Part001.total s)%nat ->
     Part001.currentIndex (Part001.handleNext s) = (Part001.currentIndex s + 1)%nat
     /\ Part001.selectedIndex (Part001.handleNext s) = None
     /\ Part001.isFinished (Part001.handleNext s) = false)
  /\ ((Part001.total s <= Part001.currentIndex s + 1)%nat ->
        Part001.currentIndex (Part001.handleNext s) = Part001.total s
        /\ Part001.selectedIndex (Part001.handleNext s) = None
        /\ Part001.isFinished (Part001.handleNext s) = true)
  /\ Part001.questions (Part001.handleNext s) = Part001.questions s
  /\ Part001.state (Part001.handleNext s) = ready.
Proof.
  intros Hready _. unfold Part001.handleNext.
  destruct (Nat.leb_spec (Part001.total s) (Part001.currentIndex s + 1))
    as [Hle|Hlt].
  - unfold Part001.isFinished, Part001.total in *. simpl. rewrite Hready.
    split; [lia|]. split; [|done]. intros _.
    split; [done|]. split; [done|]. simpl. by apply Nat.leb_le.
  - unfold Part001.isFinished, Part001.total in *. simpl. rewrite Hready.
    split; [|split; [lia | done]]. intros _.
    split; [done|]. split; [done|]. simpl. apply Nat.leb_gt. lia.
Qed.

(** C3: in the ready state with a question on display, [handleNext] moves to
    the next position when there is one and to the position [total], the
    finished state, when there is none; in both cases the selection is
    cleared, whatever it was. Both variants. *)
Theorem handleNext_advances :
  (forall s : Part000.App,
     Part000.state s = ready -> Part000.isFinished s = false ->
     ((Part000.currentIndex s + 1 < Part000.total s)%nat ->
        Part000.currentIndex (Part000.handleNext s)
        = (Part000.currentIndex s + 1)%nat
        /\ Part000.selectedIndex (Part000.handleNext s) = None
        /\ Part000.isFinished (Part000.handleNext s) = false)
     /\ ((Part000.total s <= Part000.currentIndex s + 1)%nat ->
           Part000.currentIndex (Part000.handleNext s) = Part000.total s
           /\ Part000.selectedIndex (Part000.handleNext s) = None
           /\ Part000.isFinished (Part000.handleNext s) = true))
  /\ (forall s : Part001.App,
        Part001.state s = ready -> Part001.isFinished s = false ->
        ((Part001.currentIndex s + 1 < Part001.total s)%nat ->
           Part001.currentIndex (Part001.handleNext s)
           = (Part001.currentIndex s + 1)%nat
           /\ Part001.selectedIndex (Part001.handleNext s) = None
           /\ Part001.isFinished (Part001.handleNext s) = false)
        /\ ((Part001.total s <= Part001.currentIndex s + 1)%nat ->
              Part001.currentIndex (Part001.handleNext s) = Part001.total s
              /\ Part001.selectedIndex (Part001.handleNext s) = None
              /\ Part001.isFinished (Part001.handleNext s) = true)).
Proof.
  split; intros s Hready Hpresenting.
  - destruct (Part000_handleNext s Hready Hpresenting) as (H1 & H2 & _).
    by split.
  - destruct (Part001_handleNext s Hready Hpresenting) as (H1 & H2 & _).
    by split.
Qed.

(** A witness of [handleNext_advances]: from the first of two questions the
    first variant moves to the second; from the last question the second
    variant finishes; an option was selected in both. *)
Lemma handleNext_advances_witness :
  let s0 := session000 [sampleQuestion "Q1"; sampleQuestion "Q2"] []
              0 (Some 2%nat) in
  let s1 := session001 [sampleQuestion "Q1"; sampleQuestion "Q2"] []
              [bgNull; bgNull] 1 (Some 0%nat) in
  (Part000.currentIndex (Part000.handleNext s0) = 1%nat
   /\ Part000.selectedIndex (Part000.handleNext s0) = None
   /\ Part000.isFinished (Part000.handleNext s0) = false)
  /\ (Part001.currentIndex (Part001.handleNext s1) = 2%nat
      /\ Part001.selectedIndex (Part001.handleNext s1) = None
      /\ Part001.isFinished (Part001.handleNext s1) = true).
Proof.
  intros s0 s1. split.
  - apply (proj1 (proj1 handleNext_advances s0 eq_refl eq_refl)).
    vm_compute. lia.
  - apply (proj2 (proj2 handleNext_advances s1 eq_refl eq_refl)).
    vm_compute. lia.
Defined.

Lemma Part000_click_guard (s : Part000.App) :
  Part000.answered s
  || negb (bool_decide (is_Some (Part000.currentQuestion s))) = false
  <-> Part000.selectedIndex s = None /\ is_Some (Part000.currentQuestion s).
Proof.
  unfold Part000.answered.
  rewrite orb_false_iff, negb_false_iff, bool_decide_eq_false,
    bool_decide_eq_true.
  destruct (Part000.selectedIndex s) as [k|].
  - split; intros [H1 H2]; [by destruct H1 | done].
  - split; intros [H1 H2]; (split; [|done]); [done | by intros H].
Qed.

Lemma Part001_click_guard (s : Part001.App) :
  Part001.answered s
  || negb (bool_decide (is_Some (Part001.currentQuestion s))) = false
  <-> Part001.selectedIndex s = None /\ is_Some (Part001.currentQuestion s).
Proof.
  unfold Part001.answered.
  rewrite orb_false_iff, negb_false_iff, bool_decide_eq_false,
    bool_decide_eq_true.
  destruct (Part001.selectedIndex s) as [k|].
  - split; intros [H1 H2]; [by destruct H1 | done].
  - split; intros [H1 H2]; (split; [|done]); [done | by intros H].
Qed.

Lemma Part000_click_records (i : nat) (g : rng) (s : Part000.App) :
  Part000.selectedIndex s = None -> is_Some (Part000.currentQuestion s) ->
  Part000.selectedIndex (fst (Part000.handleOptionClick i g s)) = Some i
  /\ Part000.currentIndex (fst (Part000.handleOptionClick i g s))
     = Part000.currentIndex s
  /\ Part000.questions (fst (Part000.handleOptionClick i g s))
     = Part000.questions s
  /\ Part000.state (fst (Part000.handleOptionClick i g s)) = Part000.state s.
Proof.
  intros Hsel Hq. unfold Part000.handleOptionClick.
  rewrite (proj2 (Part000_click_guard s)) by done.
  by destruct (if Nat.eqb _ 0 then _ else _).
Qed.

Lemma Part000_click_ignored (i : nat) (g : rng) (s : Part000.App) :
  Part000.selectedIndex s <> None \/ Part000.currentQuestion s = None ->
  Part000.handleOptionClick i g s = (s, g).
Proof.
  intros Hno. unfold Part000.handleOptionClick.
  destruct (_ || _) eqn:Hguard; [done|].
  apply Part000_click_guard in Hguard as [Hsel [q Hq]].
  destruct Hno; congruence.
Qed.

Lemma Part001_click_records (i : nat) (s : Part001.App) :
  Part001.selectedIndex s = None -> is_Some (Part001.currentQuestion s) ->
  Part001.selectedIndex (Part001.handleOptionClick i s) = Some i
  /\ Part001.currentIndex (Part001.handleOptionClick i s)
     = Part001.currentIndex s
  /\ Part001.questions (Part001.handleOptionClick i s) = Part001.questions s
  /\ Part001.state (Part001.handleOptionClick i s) = Part001.state s.
Proof.
  intros Hsel Hq. unfold Part001.handleOptionClick.
  by rewrite (proj2 (Part001_click_guard s)).
Qed.

Lemma Part001_click_ignored (i : nat) (s : Part001.App) :
  Part001.selectedIndex s <> None \/ Part001.currentQuestion s = None ->
  Part001.handleOptionClick i s = s.
Proof.
  intros Hno. unfold Part001.handleOptionClick.
  destruct (_ || _) eqn:Hguard; [done|].
  apply Part001_click_guard in Hguard as [Hsel [q Hq]].
  destruct Hno; congruence.
Qed.

(** After a click, whether it was taken or not, a further click changes
    nothing. *)
Lemma Part000_click_twice (i j : nat) (g g2 : rng) (s : Part000.App) :
  Part000.handleOptionClick j g2 (fst (Part000.handleOptionClick i g s))
  = (fst (Part000.handleOptionClick i g s), g2).
Proof.
  apply Part000_click_ignored.
  destruct (Part000.selectedIndex s) as [k|] eqn:Hsel.
  { rewrite Part000_click_ignored by (left; congruence).
    left. simpl. congruence. }
  destruct (Part000.currentQuestion s) as [q|] eqn:Hq.
  - left. destruct (Part000_click_records i g s Hsel) as [-> _]; [|done].
    by rewrite Hq.
  - right. by rewrite Part000_click_ignored by (by right).
Qed.

Lemma Part001_click_twice (i j : nat) (s : Part001.App) :
  Part001.handleOptionClick j (Part001.handleOptionClick i s)
  = Part001.handleOptionClick i s.
Proof.
  apply Part001_click_ignored.
  destruct (Part001.selectedIndex s) as [k|] eqn:Hsel.
  { rewrite Part001_click_ignored by (left; congruence).
    left. congruence. }
  destruct (Part001.currentQuestion s) as [q|] eqn:Hq.
  - left. destruct (Part001_click_records i s Hsel) as [-> _]; [|done].
    by rewrite Hq.
  - right. by rewrite Part001_click_ignored by (by right).
Qed.

(** C6: [handleOptionClick] records the selection when nothing is selected
    and a current question exists, and only then: with a selection in place
    or without a current question the state (and the supply of draws) is
    what it was. A second click after a first one is therefore ignored, and
    the selection stays at the first value. Both variants. *)
Theorem handleOptionClick_first_wins :
  (forall (i j : nat) (g g2 : rng) (s : Part000.App),
     (Part000.selectedIndex s = None -> is_Some (Part000.currentQuestion s) ->
        Part000.selectedIndex (fst (Part000.handleOptionClick i g s)) = Some i
        /\ Part000.selectedIndex
             (fst (Part000.handleOptionClick j g2
                     (fst (Part000.handleOptionClick i g s)))) = Some i)
     /\ (Part000.selectedIndex s <> None \/ Part000.currentQuestion s = None ->
           Part000.handleOptionClick i g s = (s, g))
     /\ Part000.handleOptionClick j g2 (fst (Part000.handleOptionClick i g s))
        = (fst (Part000.handleOptionClick i g s), g2))
  /\ (forall (i j : nat) (s : Part001.App),
        (Part001.selectedIndex s = None ->
         is_Some (Part001.currentQuestion s) ->
           Part001.selectedIndex (Part001.handleOptionClick i s) = Some i
           /\ Part001.selectedIndex
                (Part001.handleOptionClick j (Part001.handleOptionClick i s))
              = Some i)
        /\ (Part001.selectedIndex s <> None
            \/ Part001.currentQuestion s = None ->
              Part001.handleOptionClick i s = s)
        /\ Part001.handleOptionClick j (Part001.handleOptionClick i s)
           = Part001.handleOptionClick i s).
Proof.
  split.
  - intros i j g g2 s. split; [|split].
    + intros Hsel Hq. rewrite Part000_click_twice. simpl.
      destruct (Part000_click_records i g s Hsel Hq) as [H _]. by split.
    + apply Part000_click_ignored.
    + apply Part000_click_twice.
  - intros i j s. split; [|split].
    + intros Hsel Hq. rewrite Part001_click_twice.
      destruct (Part001_click_records i s Hsel Hq) as [H _]. by split.
    + apply Part001_click_ignored.
    + apply Part001_click_twice.
Qed.

(** A witness of [handleOptionClick_first_wins]: option 1 is clicked, then
    option 3; in the first variant a footer image is drawn at the first
    click only. *)
Lemma handleOptionClick_first_wins_witness :
  let s0 := session000 [sampleQuestion "Q1"] [js "a.png"] 0 None in
  let s1 := session001 [sampleQuestion "Q1"] [] [bgNull] 0 None in
  (Part000.selectedIndex (fst (Part000.handleOptionClick 1 [5] s0))
   = Some 1%nat
   /\ Part000.selectedIndex
        (fst (Part000.handleOptionClick 3 [6]
                (fst (Part000.handleOptionClick 1 [5] s0)))) = Some 1%nat)
  /\ (Part001.selectedIndex (Part001.handleOptionClick 1 s1) = Some 1%nat
      /\ Part001.selectedIndex
           (Part001.handleOptionClick 3 (Part001.handleOptionClick 1 s1))
         = Some 1%nat).
Proof.
  intros s0 s1. split.
  - apply (proj1 (proj1 handleOptionClick_first_wins 1%nat 3%nat [5] [6] s0));
      [reflexivity | by eexists].
  - apply (proj1 (proj2 handleOptionClick_first_wins 1%nat 3%nat s1));
      [reflexivity | by eexists].
Defined.

Example handleOptionClick_draws_image :
  Part000.handleOptionClick 1 [5]
    (session000 [sampleQuestion "Q1"] [js "a.png"] 0 None)
  = ({| Part000.state := ready;
        Part000.questions := [sampleQuestion "Q1"];
        Part000.backgrounds := [js "a.png"];
        Part000.currentIndex := 0;
        Part000.selectedIndex := Some 1%nat;
        Part000.errorMessage := [];
        Part000.answerFooterImage := bgPath (js "a.png") |}, []).
Proof. vm_compute. reflexivity. Qed.

(** ** load *)

Lemma messages_distinct :
  unableToLoad <> noQuestionsMessage /\ loadFailedMessage <> noQuestionsMessage.
Proof. split; vm_compute; discriminate. Qed.

Lemma Part000_load_returned fetchQ fetchB (g : rng) (s : Part000.App) raw :
  snd (loadJsonWithFallback fetchQ Part000.QUESTION_SOURCES) = Returned raw ->
  exists shuffled g',
    shuffleArray g (normalizeQuestions raw) = Some (shuffled, g')
    /\ shuffled ≡ₚ normalizeQuestions raw
    /\ Part000.load fetchQ fetchB g s =
       Some ({| Part000.state :=
                  if Nat.eqb (length shuffled) 0 then error else ready;
                Part000.questions := shuffled;
                Part000.backgrounds :=
                  loadBackgrounds fetchB Part000.BACKGROUND_SOURCES;
                Part000.currentIndex := Part000.currentIndex s;
                Part000.selectedIndex := Part000.selectedIndex s;
                Part000.errorMessage :=
                  if Nat.eqb (length shuffled) 0 then noQuestionsMessage
                  else Part000.errorMessage s;
                Part000.answerFooterImage := Part000.answerFooterImage s |},
             g').
Proof.
  intros Hq. unfold Part000.load. rewrite Hq.
  destruct (shuffleArray_perm g (normalizeQuestions raw))
    as (shuffled & g' & Hrun & Hp).
  exists shuffled, g'. by rewrite Hrun.
Qed.

Lemma Part001_load_returned fetchQ fetchB (g : rng) (s : Part001.App) raw :
  snd (loadJsonWithFallback fetchQ Part001.QUESTION_SOURCES) = Returned raw ->
  exists shuffled g1,
    shuffleArray g (normalizeQuestions raw) = Some (shuffled, g1)
    /\ shuffled ≡ₚ normalizeQuestions raw
    /\ Part001.load fetchQ fetchB g s =
       Some ({| Part001.state :=
                  if Nat.eqb (length shuffled) 0 then error else ready;
                Part001.questions := shuffled;
                Part001.backgrounds :=
                  loadBackgrounds fetchB Part001.BACKGROUND_SOURCES;
                Part001.backgroundMap :=
                  fst (createBackgroundMap (length shuffled)
                         (loadBackgrounds fetchB Part001.BACKGROUND_SOURCES)
                         g1);
                Part001.currentIndex := Part001.currentIndex s;
                Part001.selectedIndex := Part001.selectedIndex s;
                Part001.errorMessage :=
                  if Nat.eqb (length shuffled) 0 then noQuestionsMessage
                  else Part001.errorMessage s |},
             snd (createBackgroundMap (length shuffled)
                    (loadBackgrounds fetchB Part001.BACKGROUND_SOURCES) g1)).
Proof.
  intros Hq. unfold Part001.load. rewrite Hq.
  destruct (shuffleArray_perm g (normalizeQuestions raw))
    as (shuffled & g1 & Hrun & Hp).
  exists shuffled, g1. rewrite Hrun. simpl.
  by destruct (createBackgroundMap _ _ g1).
Qed.

(** What the state and the message set by [load] amount to. *)
Lemma loadTransition_returned raw shuffled (old : jsstring) :
  shuffled ≡ₚ normalizeQuestions raw ->
  loadTransition (Returned raw)
    (if Nat.eqb (length shuffled) 0 then error else ready)
    (if Nat.eqb (length shuffled) 0 then noQuestionsMessage else old)
    shuffled.
Proof.
  intros Hp. unfold loadTransition.
  assert (Hnil : shuffled = [] <-> normalizeQuestions raw = []).
  { split; intros H; rewrite H in Hp.
    - by apply Permutation_nil in Hp.
    - symmetry in Hp. by apply Permutation_nil in Hp. }
  destruct shuffled as [|q rest]; simpl.
  - split; [by right|]. split; [|split; [|split]].
    + split; [done|]. intros (raw' & [= <-] & Hne). exfalso. by apply Hne, Hnil.
    + by intros raw' [= <-].
    + intros e [=].
    + done.
  - split; [by left|]. split; [|split; [|split]].
    + split; [|done]. intros _. exists raw. split; [done|].
      intros H. by apply Hnil in H.
    + by intros raw' [= <-].
    + intros e [=].
    + intros raw' [= <-] H. by apply Hnil in H.
Qed.

Lemma loadTransition_thrown e (qs : list Question) :
  loadTransition (Thrown e) error (messageOf e) qs.
Proof.
  unfold loadTransition. split; [by right|]. split; [|split; [|split]].
  - split; [done|]. by intros (raw & [=] & _).
  - intros raw [=].
  - by intros e' [= <-].
  - intros raw [=].
Qed.

(** C7: when [load] is done the session has left [loading]: it is ready
    exactly when the loaded questions normalize to at least one, in error
    with the message of the failure when loading the questions failed, and
    in error with the message for the missing questions when none is valid;
    the message of a candidate list without success and the message for the
    missing questions differ. Both variants. *)
Theorem load_transitions :
  (forall fetchQ fetchB (g : rng) (s : Part000.App),
     exists s' g',
       Part000.load fetchQ fetchB g s = Some (s', g')
       /\ loadTransition
            (snd (loadJsonWithFallback fetchQ Part000.QUESTION_SOURCES))
            (Part000.state s') (Part000.errorMessage s')
            (Part000.questions s')
       /\ (noneOk fetchQ Part000.QUESTION_SOURCES ->
             Part000.state s' = error
             /\ Part000.errorMessage s' = unableToLoad)
       /\ (Part000.state s' = ready -> Part000.currentIndex s = 0%nat ->
             Part000.isFinished s' = false))
  /\ (forall fetchQ fetchB (g : rng) (s : Part001.App),
        exists s' g',
          Part001.load fetchQ fetchB g s = Some (s', g')
          /\ loadTransition
               (snd (loadJsonWithFallback fetchQ Part001.QUESTION_SOURCES))
               (Part001.state s') (Part001.errorMessage s')
               (Part001.questions s')
          /\ (noneOk fetchQ Part001.QUESTION_SOURCES ->
                Part001.state s' = error
                /\ Part001.errorMessage s' = unableToLoad)
          /\ (Part001.state s' = ready -> Part001.currentIndex s = 0%nat ->
                Part001.isFinished s' = false))
  /\ unableToLoad <> noQuestionsMessage
  /\ loadFailedMessage <> noQuestionsMessage.
Proof.
  split; [|split; [|apply messages_distinct]].
  - intros fetchQ fetchB g s.
    destruct (snd (loadJsonWithFallback fetchQ Part000.QUESTION_SOURCES))
      as [raw|e] eqn:Hq.
    + destruct (Part000_load_returned fetchQ fetchB g s raw Hq)
        as (shuffled & g' & _ & Hp & ->).
      eexists _, _. split; [done|]. simpl. split; [|split].
      * by apply loadTransition_returned.
      * intros Hnone. apply loadJsonWithFallback_none_ok in Hnone.
        rewrite Hnone in Hq. discriminate.
      * unfold Part000.isFinished, Part000.total. simpl.
        intros Hready ->. destruct shuffled; [done|]. done.
    + unfold Part000.load. rewrite Hq. eexists _, _. split; [done|]. simpl.
      split; [|split].
      * apply loadTransition_thrown.
      * intros Hnone. apply loadJsonWithFallback_none_ok in Hnone.
        rewrite Hnone in Hq. simpl in Hq. injection Hq as <-. done.
      * done.
  - intros fetchQ fetchB g s.
    destruct (snd (loadJsonWithFallback fetchQ Part001.QUESTION_SOURCES))
      as [raw|e] eqn:Hq.
    + destruct (Part001_load_returned fetchQ fetchB g s raw Hq)
        as (shuffled & g' & _ & Hp & ->).
      eexists _, _. split; [done|]. simpl. split; [|split].
      * by apply loadTransition_returned.
      * intros Hnone. apply loadJsonWithFallback_none_ok in Hnone.
        rewrite Hnone in Hq. discriminate.
      * unfold Part001.isFinished, Part001.total. simpl.
        intros Hready ->. destruct shuffled; [done|]. done.
    + unfold Part001.load. rewrite Hq. eexists _, _. split; [done|]. simpl.
      split; [|split].
      * apply loadTransition_thrown.
      * intros Hnone. apply loadJsonWithFallback_none_ok in Hnone.
        rewrite Hnone in Hq. simpl in Hq. injection Hq as <-. done.
      * done.
Qed.

(** A witness of [load_transitions]: no candidate location has the
    questions. *)
Lemma load_transitions_witness :
  exists s' g',
    Part000.load serveNone serveNone [] Part000.initial = Some (s', g')
    /\ Part000.state s' = error
    /\ Part000.errorMessage s' = unableToLoad.
Proof.
  destruct (proj1 load_transitions serveNone serveNone [] Part000.initial)
    as (s' & g' & Hload & _ & Hnone & _).
  exists s', g'. split; [exact Hload|].
  apply Hnone. intros source _. eexists. reflexivity.
Defined.

Example load_empty_array :
  Part001.load (serveAll []) (serveAll []) [] Part001.initial
  = Some ({| Part001.state := error; Part001.questions := [];
             Part001.backgrounds := []; Part001.backgroundMap := [];
             Part001.currentIndex := 0; Part001.selectedIndex := None;
             Part001.errorMessage := noQuestionsMessage |}, []).
Proof. reflexivity. Qed.

Example load_unreachable :
  Part001.load unreachable unreachable [] Part001.initial
  = Some ({| Part001.state := error; Part001.questions := [];
             Part001.backgrounds := []; Part001.backgroundMap := [];
             Part001.currentIndex := 0; Part001.selectedIndex := None;
             Part001.errorMessage := js "Failed to fetch" |}, []).
Proof. reflexivity. Qed.

Lemma loadBackgrounds_thrown fetchB (sources : list jsstring) e :
  snd (loadJsonWithFallback fetchB sources) = Thrown e ->
  loadBackgrounds fetchB sources = [].
Proof. intros H. unfold loadBackgrounds. by rewrite H. Qed.

(** C8: a failure of the background list, of whatever kind, is absorbed: the
    list of backgrounds is empty and, the questions being loaded with at
    least one valid among them, the session is ready. Both variants; in the
    second one every entry of the background map is [null]. *)
Theorem load_absorbs_background_failure :
  (forall fetchQ fetchB (g : rng) (s : Part000.App) raw e,
     snd (loadJsonWithFallback fetchQ Part000.QUESTION_SOURCES) = Returned raw ->
     normalizeQuestions raw <> [] ->
     snd (loadJsonWithFallback fetchB Part000.BACKGROUND_SOURCES) = Thrown e ->
     exists s' g',
       Part000.load fetchQ fetchB g s = Some (s', g')
       /\ Part000.state s' = ready
       /\ Part000.backgrounds s' = []
       /\ Part000.questions s' ≡ₚ normalizeQuestions raw)
  /\ (forall fetchQ fetchB (g : rng) (s : Part001.App) raw e,
        snd (loadJsonWithFallback fetchQ Part001.QUESTION_SOURCES)
        = Returned raw ->
        normalizeQuestions raw <> [] ->
        snd (loadJsonWithFallback fetchB Part001.BACKGROUND_SOURCES)
        = Thrown e ->
        exists s' g',
          Part001.load fetchQ fetchB g s = Some (s', g')
          /\ Part001.state s' = ready
          /\ Part001.backgrounds s' = []
          /\ Part001.questions s' ≡ₚ normalizeQuestions raw
          /\ Part001.backgroundMap s' = replicate (Part001.total s') bgNull).
Proof.
  split.
  - intros fetchQ fetchB g s raw e Hq Hne Hb.
    destruct (Part000_load_returned fetchQ fetchB g s raw Hq)
      as (shuffled & g' & _ & Hp & ->).
    eexists _, _. split; [done|]. simpl.
    rewrite (loadBackgrounds_thrown _ _ e Hb).
    destruct shuffled as [|q rest]; [|done].
    apply Permutation_nil in Hp. by destruct Hne.
  - intros fetchQ fetchB g s raw e Hq Hne Hb.
    destruct (Part001_load_returned fetchQ fetchB g s raw Hq)
      as (shuffled & g' & _ & Hp & ->).
    eexists _, _. split; [done|]. simpl.
    rewrite (loadBackgrounds_thrown _ _ e Hb).
    destruct shuffled as [|q rest]; [|done].
    apply Permutation_nil in Hp. by destruct Hne.
Qed.

(** A witness of [load_absorbs_background_failure]: one valid question is
    served, the list of backgrounds cannot be reached (first variant) or is
    missing (second variant). *)
Lemma load_absorbs_background_failure_witness :
  (exists s' g',
     Part000.load (serveAll [sampleRaw " Q1 "]) unreachable [] Part000.initial
     = Some (s', g')
     /\ Part000.state s' = ready
     /\ Part000.backgrounds s' = []
     /\ Part000.questions s' ≡ₚ normalizeQuestions [sampleRaw " Q1 "])
  /\ (exists s' g',
        Part001.load (serveAll [sampleRaw " Q1 "]) serveNone []
          Part001.initial = Some (s', g')
        /\ Part001.state s' = ready
        /\ Part001.backgrounds s' = []
        /\ Part001.questions s' ≡ₚ normalizeQuestions [sampleRaw " Q1 "]
        /\ Part001.backgroundMap s' = replicate (Part001.total s') bgNull).
Proof.
  split.
  - apply (proj1 load_absorbs_background_failure
             (serveAll [sampleRaw " Q1 "]) unreachable [] Part000.initial
             [sampleRaw " Q1 "] (ErrorObject (js "Failed to fetch")));
      [reflexivity | vm_compute; discriminate | reflexivity].
  - apply (proj2 load_absorbs_background_failure
             (serveAll [sampleRaw " Q1 "]) serveNone [] Part001.initial
             [sampleRaw " Q1 "] (ErrorObject unableToLoad));
      [reflexivity | vm_compute; discriminate | reflexivity].
Defined.

Example load_scenario_A :
  Part001.load (serveAll [sampleRaw " Q1 "]) (serveAll []) [] Part001.initial
  = Some ({| Part001.state := ready;
             Part001.questions := [sampleQuestion "Q1"];
             Part001.backgrounds := [];
             Part001.backgroundMap := [bgNull];
             Part001.currentIndex := 0; Part001.selectedIndex := None;
             Part001.errorMessage := [] |}, []).
Proof. vm_compute. reflexivity. Qed.

(** ** handleRestart *)

Lemma createBackgroundMap_drawn (count : nat) (pool : list jsstring) (g : rng) :
  drawnFromPool pool count
    (fun k => default bgUndefined (fst (createBackgroundMap count pool g) !! k)).
Proof.
  pose proof (createBackgroundMap_length count pool g) as Hlen.
  intros k Hk.
  destruct (lookup_lt_is_Some_2 (fst (createBackgroundMap count pool g)) k)
    as [e He]; [lia|].
  rewrite He. simpl. case_bool_decide as Hpool.
  - subst pool. rewrite createBackgroundMap_null in He. simpl in He.
    by apply lookup_replicate in He as [-> _].
  - eapply (proj1 (Forall_lookup _ _)
              (createBackgroundMap_elems count pool g Hpool)), He.
Qed.

Lemma Part000_handleRestart (g : rng) (s : Part000.App) :
  exists shuffled g',
    shuffleArray g (Part000.questions s) = Some (shuffled, g')
    /\ shuffled ≡ₚ Part000.questions s
    /\ Part000.handleRestart g s =
       Some ({| Part000.state := Part000.state s;
                Part000.questions := shuffled;
                Part000.backgrounds := Part000.backgrounds s;
                Part000.currentIndex := 0;
                Part000.selectedIndex := None;
                Part000.errorMessage := Part000.errorMessage s;
                Part000.answerFooterImage := bgNull |}, g').
Proof.
  destruct (shuffleArray_perm g (Part000.questions s))
    as (shuffled & g' & Hrun & Hp).
  exists shuffled, g'. unfold Part000.handleRestart. by rewrite Hrun.
Qed.

Lemma Part001_handleRestart (g : rng) (s : Part001.App) :
  exists shuffled g1,
    shuffleArray g (Part001.questions s) = Some (shuffled, g1)
    /\ shuffled ≡ₚ Part001.questions s
    /\ Part001.handleRestart g s =
       Some ({| Part001.state := Part001.state s;
                Part001.questions := shuffled;
                Part001.backgrounds := Part001.backgrounds s;
                Part001.backgroundMap :=
                  fst (createBackgroundMap (length shuffled)
                         (Part001.backgrounds s) g1);
                Part001.currentIndex := 0;
                Part001.selectedIndex := None;
                Part001.errorMessage := Part001.errorMessage s |},
             snd (createBackgroundMap (length shuffled)
                    (Part001.backgrounds s) g1)).
Proof.
  destruct (shuffleArray_perm g (Part001.questions s))
    as (shuffled & g1 & Hrun & Hp).
  exists shuffled, g1. unfold Part001.handleRestart. rewrite Hrun. simpl.
  by destruct (createBackgroundMap _ _ g1).
Qed.

(** C5 (amended): from the finished state, [handleRestart] replaces the list
    of questions by a permutation of itself (the handler has no access to
    the network), moves to position 0 and clears the selection; the pool of
    backgrounds is kept. The variant with a background per question draws a
    new background map for the new list from the pool; the variant with the
    footer image clears the image. *)
Theorem handleRestart_reshuffles :
  (forall (g : rng) (s : Part000.App),
     Part000.isFinished s = true ->
     exists s' g',
       Part000.handleRestart g s = Some (s', g')
       /\ Part000.questions s' ≡ₚ Part000.questions s
       /\ Part000.currentIndex s' = 0%nat
       /\ Part000.selectedIndex s' = None
       /\ Part000.state s' = ready
       /\ Part000.backgrounds s' = Part000.backgrounds s
       /\ Part000.answerFooterImage s' = bgNull)
  /\ (forall (g : rng) (s : Part001.App),
        Part001.isFinished s = true ->
        exists s' g',
          Part001.handleRestart g s = Some (s', g')
          /\ Part001.questions s' ≡ₚ Part001.questions s
          /\ Part001.currentIndex s' = 0%nat
          /\ Part001.selectedIndex s' = None
          /\ Part001.state s' = ready
          /\ Part001.backgrounds s' = Part001.backgrounds s
          /\ length (Part001.backgroundMap s') = Part001.total s'
          /\ drawnFromPool (Part001.backgrounds s) (Part001.total s')
               (Part001.backgroundAt s')).
Proof.
  split.
  - intros g s Hfin.
    apply andb_true_iff in Hfin as [Hready%LoadState_eqb_eq _].
    destruct (Part000_handleRestart g s) as (shuffled & g' & _ & Hp & ->).
    eexists _, _. split; [done|]. simpl. by rewrite Hready.
  - intros g s Hfin.
    apply andb_true_iff in Hfin as [Hready%LoadState_eqb_eq _].
    destruct (Part001_handleRestart g s) as (shuffled & g1 & _ & Hp & ->).
    eexists _, _. split; [done|]. simpl. rewrite Hready.
    do 5 (split; [done|]). unfold Part001.total. simpl. split.
    + apply createBackgroundMap_length.
    + apply createBackgroundMap_drawn.
Qed.

(** A witness of [handleRestart_reshuffles]: two questions were answered;
    the pool has one background. *)
Lemma handleRestart_reshuffles_witness :
  let qs := [sampleQuestion "Q1"; sampleQuestion "Q2"] in
  (exists s' g',
     Part000.handleRestart [2 ^ 52] (session000 qs [js "a.png"] 2 None)
     = Some (s', g')
     /\ Part000.questions s' ≡ₚ qs
     /\ Part000.currentIndex s' = 0%nat
     /\ Part000.selectedIndex s' = None
     /\ Part000.state s' = ready
     /\ Part000.backgrounds s' = [js "a.png"]
     /\ Part000.answerFooterImage s' = bgNull)
  /\ (exists s' g',
        Part001.handleRestart [2 ^ 52]
          (session001 qs [js "a.png"] [bgPath (js "a.png"); bgNull] 2 None)
        = Some (s', g')
        /\ Part001.questions s' ≡ₚ qs
        /\ Part001.currentIndex s' = 0%nat
        /\ Part001.selectedIndex s' = None
        /\ Part001.state s' = ready
        /\ Part001.backgrounds s' = [js "a.png"]
        /\ length (Part001.backgroundMap s') = Part001.total s'
        /\ drawnFromPool [js "a.png"] (Part001.total s')
             (Part001.backgroundAt s')).
Proof.
  intros qs. split.
  - apply (proj1 handleRestart_reshuffles [2 ^ 52]
             (session000 qs [js "a.png"] 2 None)).
    reflexivity.
  - apply (proj2 handleRestart_reshuffles [2 ^ 52]
             (session001 qs [js "a.png"] [bgPath (js "a.png"); bgNull] 2 None)).
    reflexivity.
Defined.

Example handleRestart_run :
  Part001.handleRestart [0]
    (session001 [sampleQuestion "Q1"; sampleQuestion "Q2"] [js "a.png"]
       [bgNull; bgNull] 2 (Some 3%nat))
  = Some (session001 [sampleQuestion "Q2"; sampleQuestion "Q1"] [js "a.png"]
            [bgPath (js "a.png"); bgPath (js "a.png")] 0 None, []).
Proof. vm_compute. reflexivity. Qed.

(** C5 as stated does not hold in the first variant: after the restart no
    position has a background, although the pool has one. *)
Lemma handleRestart_000_draws_nothing :
  ~ restartRegenerates000 [2 ^ 52]
      (session000 [sampleQuestion "Q1"; sampleQuestion "Q2"] [js "a.png"]
         2 None).
Proof.
  intros (s' & g' & Hrun & Hdrawn).
  vm_compute in Hrun. injection Hrun as <- <-.
  specialize (Hdrawn 0%nat). vm_compute in Hdrawn.
  destruct Hdrawn as (b & Hb & _); [lia | discriminate].
Qed.

(** ** A whole session *)

(** Two valid questions are loaded, both are answered and passed; the
    second [handleNext] finishes the session and [handleRestart] starts it
    again at position 0 without a selection. *)
Example session_of_two_questions :
  let raw := [sampleRaw "Q1"; sampleRaw " Q2 "] in
  exists s0 g0 s4 s5 g5,
    Part001.load (serveAll raw) (serveAll [js "a.png"]) [0; 7; 7; 0]
      Part001.initial = Some (s0, g0)
    /\ Part001.questions s0 = [sampleQuestion "Q2"; sampleQuestion "Q1"]
    /\ s4 = Part001.handleNext
              (Part001.handleOptionClick 1
                 (Part001.handleNext (Part001.handleOptionClick 0 s0)))
    /\ Part001.isFinished s4 = true
    /\ Part001.currentIndex s4 = 2%nat
    /\ Part001.handleRestart g0 s4 = Some (s5, g5)
    /\ Part001.currentIndex s5 = 0%nat
    /\ Part001.selectedIndex s5 = None
    /\ Part001.isFinished s5 = false
    /\ Part001.questions s5 = [sampleQuestion "Q1"; sampleQuestion "Q2"].
Proof.
  intros raw. eexists _, _, _, _, _.
  split; [vm_compute; reflexivity|].
  split; [reflexivity|]. split; [reflexivity|].
  split; [reflexivity|]. split; [reflexivity|].
  split; [vm_compute; reflexivity|].
  repeat split.
Qed.

(** * Further properties *)

(** ** What normalization leaves *)

Lemma trimStart_padding (s : jsstring) :
  exists pre, s = pre ++ trimStart s /\ allWhiteSpace pre.
Proof.
  induction s as [|c s (pre & Hs & Hpre)].
  - exists []. split; [done | constructor].
  - simpl. destruct (isWhiteSpace c) eqn:Hc.
    + exists (c :: pre). split; [simpl; congruence | by constructor].
    + exists []. split; [done | constructor].
Qed.

Lemma trim_padding (s : jsstring) : paddingOf (trim s) s.
Proof.
  destruct (trimStart_padding s) as (pre & Hs & Hpre).
  destruct (trimStart_padding (rev (trimStart s))) as (post & Hr & Hpost).
  exists pre, (rev post). split; [|split; [done|]].
  - unfold trim, trimEnd. rewrite <- rev_app_distr, <- Hr, rev_involutive.
    exact Hs.
  - unfold allWhiteSpace in *. apply Forall_forall. intros c Hc.
    apply (proj1 (Forall_forall _ _) Hpost). apply list_elem_of_In.
    apply in_rev. by apply list_elem_of_In.
Qed.

Lemma trimStart_head (s : jsstring) (c : N) :
  head (trimStart s) = Some c -> isWhiteSpace c = false.
Proof.
  induction s as [|d s IH]; simpl; [done|].
  destruct (isWhiteSpace d) eqn:Hd; [done|].
  simpl. by intros [= <-].
Qed.

Lemma last_rev_head (s : jsstring) : last (rev s) = head s.
Proof. destruct s as [|c s]; [done|]. simpl. by rewrite last_snoc. Qed.

Lemma trim_trimmed (s : jsstring) : trimmed (trim s).
Proof.
  unfold trimmed, trim. split.
  - intros c.
    destruct (trimStart_fixed (trimStart s) (trimStart_idem s))
      as [->|(d & rest & Heq & Hd)]; [done|].
    rewrite Heq, trimEnd_cons by done. simpl. by intros [= <-].
  - intros c. unfold trimEnd. rewrite last_rev_head. apply trimStart_head.
Qed.

Lemma normalizeOption_trimmed (o : RawOption) :
  trimmed (text (normalizeOption o)).
Proof.
  unfold normalizeOption. simpl.
  destruct (raw_text o); [apply trim_trimmed | by split].
Qed.

(** X1: every question that [normalizeQuestions] returns has a prompt that
    is not empty, exactly four options, and neither its prompt nor any of
    its option texts begins or ends with white space. *)
Theorem normalizeQuestions_wellformed (raw : list RawQuestion) (q : Question) :
  q ∈ normalizeQuestions raw ->
  question q <> []
  /\ length (options q) = 4%nat
  /\ trimmed (question q)
  /\ Forall (fun o => trimmed (text o)) (options q).
Proof.
  unfold normalizeQuestions. intros Hq.
  apply list_elem_of_In, filter_In in Hq as [Hin Hkeep].
  apply in_map_iff in Hin as (r & <- & _).
  unfold keepEntry in Hkeep. apply andb_true_iff in Hkeep as [Hp Hn].
  split; [by destruct (question (normalizeEntry r))|].
  split; [by apply Nat.eqb_eq|].
  unfold normalizeEntry. simpl. split.
  - destruct (raw_question r); [apply trim_trimmed | by split].
  - destruct (raw_options r) as [opts|]; [|constructor].
    apply Forall_map, Forall_forall. intros o _.
    apply normalizeOption_trimmed.
Qed.

(** A witness of [normalizeQuestions_wellformed]. *)
Lemma normalizeQuestions_wellformed_witness :
  let q := sampleQuestion "Q1" in
  question q <> []
  /\ length (options q) = 4%nat
  /\ trimmed (question q)
  /\ Forall (fun o => trimmed (text o)) (options q).
Proof.
  intros q.
  apply (normalizeQuestions_wellformed
           [sampleRaw "  "; sampleRaw " Q1 "] q).
  vm_compute. left.
Defined.

(** X2: a question that [normalizeQuestions] returns comes from a record of
    the input whose prompt and option texts are those of the question with
    white space around them, one option for one and in the same order,
    with the same [right] flags: nothing but white space at the ends is ever
    removed, and an absent option text becomes the empty text. *)
Theorem normalizeQuestions_provenance (raw : list RawQuestion) (q : Question) :
  q ∈ normalizeQuestions raw ->
  exists r prompt opts,
    r ∈ raw
    /\ raw_question r = Some prompt
    /\ paddingOf (question q) prompt
    /\ raw_options r = Some opts
    /\ Forall2 (fun o ro =>
                  right o = raw_right ro
                  /\ match raw_text ro with
                     | Some t => paddingOf (text o) t
                     | None => text o = []
                     end)
               (options q) opts.
Proof.
  intros Hq.
  destruct (normalizeQuestions_only_valid raw q Hq) as (r & Hin & Hv & ->).
  rewrite <- normalizeEntry_specRecord.
  unfold specValid, specPrompt, specOptions in Hv.
  unfold normalizeEntry. simpl.
  destruct (raw_question r) as [prompt|] eqn:Hprompt; [|by vm_compute in Hv].
  destruct (raw_options r) as [opts|] eqn:Hopts;
    [|by rewrite andb_false_r in Hv].
  exists r, prompt, opts. split; [done|]. split; [done|].
  split; [apply trim_padding|]. split; [done|].
  clear. induction opts as [|ro opts IH]; simpl; constructor; [|done].
  unfold normalizeOption. simpl. split; [done|].
  destruct (raw_text ro); [apply trim_padding | done].
Qed.

(** A witness of [normalizeQuestions_provenance]. *)
Lemma normalizeQuestions_provenance_witness :
  exists r prompt opts,
    r ∈ [sampleRaw "  "; sampleRaw " Q1 "]
    /\ raw_question r = Some prompt
    /\ paddingOf (question (sampleQuestion "Q1")) prompt
    /\ raw_options r = Some opts
    /\ Forall2 (fun o ro =>
                  right o = raw_right ro
                  /\ match raw_text ro with
                     | Some t => paddingOf (text o) t
                     | None => text o = []
                     end)
               (options (sampleQuestion "Q1")) opts.
Proof.
  apply (normalizeQuestions_provenance
           [sampleRaw "  "; sampleRaw " Q1 "] (sampleQuestion "Q1")).
  vm_compute. left.
Defined.

(** ** What shuffle draws and what it can return *)

Lemma randomIndex_rest (n : nat) (g : rng) :
  snd (randomIndex n g) = drop 1 g.
Proof. unfold randomIndex, mathRandom. by destruct g. Qed.


Section ShuffleDraws.
Context {T : Type}.
Implicit Types (l out : list T) (g : rng).

Lemma shuffleLoop_draws i g l :
  (i = 0 \/ i < length l)%nat ->
  exists out, shuffleLoop i g l = Some (out, drop i g)
              /\ length out = length l.
Proof.
  revert g l. induction i as [|i IH]; intros g l Hi.
  - exists l. by rewrite drop_0.
  - rewrite shuffleLoop_succ.
    pose proof (randomIndex_lt (S i + 1) g ltac:(lia)) as Hj.
    pose proof (randomIndex_rest (S i + 1) g) as Hg.
    destruct (randomIndex (S i + 1) g) as [j g1]. cbn [fst snd] in *.
    destruct (swap_in_range (S i) j l) as (l1 & -> & _ & Hlen); [lia..|].
    simpl. destruct (IH g1 l1) as (out & -> & Hout); [lia|].
    exists out. subst g1. rewrite drop_drop. split; [done | congruence].
Qed.

(** X3: [shuffle] takes exactly [length - 1] draws from [Math.random] and
    returns an array of the length of its input; an array of at most one
    element takes no draw and comes back as it is. *)
Theorem shuffleArray_draws g l :
  exists out,
    shuffleArray g l = Some (out, drop (length l - 1) g)
    /\ length out = length l
    /\ ((length l <= 1)%nat -> out = l).
Proof.
  unfold shuffleArray.
  destruct (shuffleLoop_draws (length l - 1) g l) as (out & Hrun & Hlen).
  { destruct l; simpl; lia. }
  exists out. split; [done|]. split; [done|].
  intros Hsmall. replace (length l - 1)%nat with 0%nat in Hrun by lia.
  simpl in Hrun. congruence.
Qed.


End ShuffleDraws.

(** A witness of [shuffleArray_draws]: one element, no draw. *)
Lemma shuffleArray_draws_witness :
  shuffleArray [7] [5%nat] = Some ([5%nat], [7]).
Proof.
  destruct (shuffleArray_draws [7] [5%nat]) as (out & Hrun & _ & Hsmall).
  rewrite Hrun. rewrite (Hsmall ltac:(simpl; lia)). reflexivity.
Defined.


(** ** What the loader looks at *)

(** X5: [loadJsonWithFallback] requests an initial segment of the candidate
    list, in the order of the list, and its result depends on nothing but
    the answers to these requests: on a network that answers them in the
    same way it requests the same locations and ends in the same result. *)
Theorem loadJsonWithFallback_local {T : Type}
    (fetch fetch' : jsstring -> FetchOutcome T) (sources : list jsstring) :
  fst (loadJsonWithFallback fetch sources) `prefix_of` sources
  /\ ((forall source, source ∈ fst (loadJsonWithFallback fetch sources) ->
         fetch' source = fetch source) ->
      loadJsonWithFallback fetch' sources = loadJsonWithFallback fetch sources).
Proof.
  induction sources as [|source rest [IHp IHe]].
  - split; [done|]. done.
  - simpl. destruct (fetch source) as [e|[|] body] eqn:Hf.
    + split; [by apply prefix_cons, prefix_nil|].
      intros Hsame. rewrite (Hsame source), Hf; [done|]. simpl. left.
    + split; [by apply prefix_cons, prefix_nil|].
      intros Hsame. rewrite (Hsame source), Hf; [done|]. simpl. left.
    + destruct (loadJsonWithFallback fetch rest) as [requested r] eqn:Hrest.
      simpl in *. split; [by apply prefix_cons|].
      intros Hsame. rewrite (Hsame source), Hf by left.
      rewrite IHe; [done|]. intros s Hs. apply Hsame. by right.
Qed.

(** A witness of [loadJsonWithFallback_local]: the answer of the second
    location plays no role when the first one fails on its body. *)
Lemma loadJsonWithFallback_local_witness :
  loadJsonWithFallback (fetchBadFirst [8%nat])
    [js "./questions.json"; js "/questions.json"]
  = loadJsonWithFallback (fetchBadFirst [7%nat])
      [js "./questions.json"; js "/questions.json"].
Proof.
  apply (proj2 (loadJsonWithFallback_local (fetchBadFirst [7%nat])
                  (fetchBadFirst [8%nat])
                  [js "./questions.json"; js "/questions.json"])).
  intros source Hin. vm_compute in Hin.
  apply list_elem_of_singleton in Hin. subst source. reflexivity.
Defined.

(** ** buildBackgroundUrl *)

Lemma startsWith_slash (path : jsstring) :
  startsWith path (js "/") = true <-> exists rest, path = 47 :: rest.
Proof.
  change (js "/") with [47]. destruct path as [|c rest]; simpl.
  - split; [done | by intros [? ?]].
  - rewrite andb_true_r, N.eqb_eq. split.
    + intros ->. by exists rest.
    + by intros [? [= -> _]].
Qed.

Lemma startsWith_slash_false (path : jsstring) :
  startsWith path (js "/") = false -> forall rest, path <> 47 :: rest.
Proof.
  intros Hno rest ->. assert (startsWith (47 :: rest) (js "/") = true) as H.
  { apply startsWith_slash. by exists rest. }
  congruence.
Qed.

(** X6: in the first variant [buildBackgroundUrl] leaves a path that starts
    with a slash as it is and puts "./backgrounds/" before any other, so
    that two entries of the pool have the same URL only if they are the same
    entry. *)
Theorem Part000_buildBackgroundUrl_injective (p q : jsstring) :
  Part000.buildBackgroundUrl p = Part000.buildBackgroundUrl q -> p = q.
Proof.
  unfold Part000.buildBackgroundUrl.
  destruct (startsWith p (js "/")) eqn:Hp, (startsWith q (js "/")) eqn:Hq.
  - done.
  - apply startsWith_slash in Hp as [rest ->]. intros [=].
  - apply startsWith_slash in Hq as [rest ->]. intros [=].
  - intros H. by apply app_inv_head in H.
Qed.

(** A witness of [Part000_buildBackgroundUrl_injective]. *)
Lemma Part000_buildBackgroundUrl_injective_witness :
  js "/b.png" = js "/b.png".
Proof.
  apply (Part000_buildBackgroundUrl_injective (js "/b.png") (js "/b.png")).
  reflexivity.
Defined.

(** X7: in the second variant the URL that [buildBackgroundUrl] returns
    always starts with a slash; the function changes nothing on its own
    results, and a path is its own URL exactly when it starts with a
    slash. *)
Theorem Part001_buildBackgroundUrl_absolute (p : jsstring) :
  startsWith (Part001.buildBackgroundUrl p) (js "/") = true
  /\ Part001.buildBackgroundUrl (Part001.buildBackgroundUrl p)
     = Part001.buildBackgroundUrl p
  /\ (Part001.buildBackgroundUrl p = p <-> startsWith p (js "/") = true).
Proof.
  unfold Part001.buildBackgroundUrl.
  destruct (startsWith p (js "/")) eqn:Hp.
  - rewrite Hp. split; [done|]. split; [done|]. done.
  - change (startsWith (js "/backgrounds/" ++ p) (js "/")) with true.
    cbv iota. split; [done|]. split; [done|]. split; [|done].
    intros H. apply (f_equal length) in H.
    rewrite length_app in H. simpl in H. lia.
Qed.

(** The second variant sends a bare file name and the absolute path of the
    same file to one URL; the first variant keeps them apart. *)
Example buildBackgroundUrl_collision :
  Part001.buildBackgroundUrl (js "a.png")
  = Part001.buildBackgroundUrl (js "/backgrounds/a.png")
  /\ Part000.buildBackgroundUrl (js "a.png")
     <> Part000.buildBackgroundUrl (js "./backgrounds/a.png").
Proof. split; [reflexivity | vm_compute; discriminate]. Qed.

(** ** The view *)

(** X8: whatever the state, exactly one of the four blocks of the markup
    (loading, error, question, finished) is rendered; the test for a current
    question never decides, since a session that is not finished has one.
    Both variants. *)
Theorem exactly_one_block :
  (forall s : Part000.App,
     (Nat.b2n (Part000.showsLoading s) + Nat.b2n (Part000.showsError s)
      + Nat.b2n (Part000.showsQuestion s)
      + Nat.b2n (Part000.showsFinished s) = 1)%nat
     /\ (Part000.isFinished s = false -> Part000.state s = ready ->
           is_Some (Part000.currentQuestion s)))
  /\ (forall s : Part001.App,
        (Nat.b2n (Part001.showsLoading s) + Nat.b2n (Part001.showsError s)
         + Nat.b2n (Part001.showsQuestion s)
         + Nat.b2n (Part001.showsFinished s) = 1)%nat
        /\ (Part001.isFinished s = false -> Part001.state s = ready ->
              is_Some (Part001.currentQuestion s))).
Proof.
  split; intros s.
  - assert (Hq : Part000.isFinished s = false -> Part000.state s = ready ->
                 is_Some (Part000.currentQuestion s)).
    { unfold Part000.isFinished, Part000.currentQuestion, Part000.total.
      intros Hfin Hst. rewrite Hst in Hfin. simpl in Hfin.
      apply Nat.leb_gt in Hfin.
      by apply lookup_lt_is_Some_2. }
    split; [|done].
    unfold Part000.showsLoading, Part000.showsError, Part000.showsQuestion,
      Part000.showsFinished.
    destruct (Part000.state s) eqn:Hst; simpl; try done.
    destruct (Part000.isFinished s) eqn:Hfin; simpl; [done|].
    by rewrite bool_decide_eq_true_2 by auto.
  - assert (Hq : Part001.isFinished s = false -> Part001.state s = ready ->
                 is_Some (Part001.currentQuestion s)).
    { unfold Part001.isFinished, Part001.currentQuestion, Part001.total.
      intros Hfin Hst. rewrite Hst in Hfin. simpl in Hfin.
      apply Nat.leb_gt in Hfin.
      by apply lookup_lt_is_Some_2. }
    split; [|done].
    unfold Part001.showsLoading, Part001.showsError, Part001.showsQuestion,
      Part001.showsFinished.
    destruct (Part001.state s) eqn:Hst; simpl; try done.
    destruct (Part001.isFinished s) eqn:Hfin; simpl; [done|].
    by rewrite bool_decide_eq_true_2 by auto.
Qed.

(** A witness of [exactly_one_block]. *)
Lemma exactly_one_block_witness :
  is_Some (Part001.currentQuestion
             (session001 [sampleQuestion "Q1"] [] [bgNull] 0 None)).
Proof.
  apply (proj2 (proj2 exactly_one_block
                  (session001 [sampleQuestion "Q1"] [] [bgNull] 0 None)));
    reflexivity.
Defined.

Lemma optionStyle_unanswered (index : nat) (o : QuestionOption) :
  optionStyle false None index o = idle.
Proof. reflexivity. Qed.

Lemma optionStyle_answered (selected index : nat) (o : QuestionOption) :
  optionStyle true (Some selected) index o =
    if isCorrect o then correct
    else if bool_decide (index = selected) then wrong else idle.
Proof.
  unfold optionStyle. simpl. destruct (isCorrect o); [done|]. simpl.
  rewrite andb_true_r.
  destruct (decide (index = selected)) as [->|Hne].
  - by rewrite !bool_decide_eq_true_2.
  - rewrite !bool_decide_eq_false_2; [done..|]. congruence.
Qed.

(** X9: while nothing is selected every option of the question on display
    looks idle; once an option is clicked, every option whose [right] is
    true looks correct, the clicked option looks wrong if it is not one of
    them, and every other option stays idle. Both variants. *)
Theorem optionStyles_reveal :
  (forall (index : nat) (g : rng) (s : Part000.App) (q : Question),
     Part000.selectedIndex s = None ->
     Part000.currentQuestion s = Some q ->
     Part000.optionStyles s = replicate (length (options q)) idle
     /\ Part000.optionStyles (fst (Part000.handleOptionClick index g s))
        = imap (fun k o =>
                  if isCorrect o then correct
                  else if bool_decide (k = index) then wrong else idle)
               (options q))
  /\ (forall (index : nat) (s : Part001.App) (q : Question),
        Part001.selectedIndex s = None ->
        Part001.currentQuestion s = Some q ->
        Part001.optionStyles s = replicate (length (options q)) idle
        /\ Part001.optionStyles (Part001.handleOptionClick index s)
           = imap (fun k o =>
                     if isCorrect o then correct
                     else if bool_decide (k = index) then wrong else idle)
                  (options q)).
Proof.
  assert (Hidle : forall l : list QuestionOption,
            imap (optionStyle false None) l = replicate (length l) idle).
  { intros l. apply list_eq. intros k. rewrite list_lookup_imap.
    destruct (l !! k) as [o|] eqn:Hk; simpl.
    - symmetry. apply lookup_replicate. split; [done|].
      by apply lookup_lt_Some in Hk.
    - symmetry. apply lookup_replicate_None. by apply lookup_ge_None. }
  split.
  - intros index g s q Hsel Hq. split.
    + unfold Part000.optionStyles, Part000.answered. rewrite Hq, Hsel.
      apply Hidle.
    + unfold Part000.handleOptionClick.
      rewrite (proj2 (Part000_click_guard s)) by (by rewrite Hq).
      destruct (if Nat.eqb _ 0 then _ else _) as [image g'].
      unfold Part000.optionStyles, Part000.answered, Part000.currentQuestion
        in *. simpl. rewrite Hq. apply imap_ext. intros k o _.
      apply optionStyle_answered.
  - intros index s q Hsel Hq. split.
    + unfold Part001.optionStyles, Part001.answered. rewrite Hq, Hsel.
      apply Hidle.
    + unfold Part001.handleOptionClick.
      rewrite (proj2 (Part001_click_guard s)) by (by rewrite Hq).
      unfold Part001.optionStyles, Part001.answered, Part001.currentQuestion
        in *. simpl. rewrite Hq. apply imap_ext. intros k o _.
      apply optionStyle_answered.
Qed.

(** A witness of [optionStyles_reveal]: the second option is clicked, the
    first one is the right one. *)
Lemma optionStyles_reveal_witness :
  let s := session001 [sampleQuestion "Q1"] [] [bgNull] 0 None in
  Part001.optionStyles s = [idle; idle; idle; idle]
  /\ Part001.optionStyles (Part001.handleOptionClick 1 s)
     = [correct; wrong; idle; idle].
Proof.
  intros s.
  apply (proj2 optionStyles_reveal 1%nat s (sampleQuestion "Q1"));
    reflexivity.
Defined.

(** ** Sessions *)

Lemma Part000_handle_frame (e : Event) (g : rng) (s : Part000.App) :
  exists s' g',
    Part000.handle e g s = Some (s', g')
    /\ Part000.state s' = Part000.state s
    /\ Part000.backgrounds s' = Part000.backgrounds s
    /\ Part000.errorMessage s' = Part000.errorMessage s
    /\ Part000.questions s' ≡ₚ Part000.questions s
    /\ Part000.total s' = Part000.total s.
Proof.
  destruct e as [index| |]; simpl.
  - exists (fst (Part000.handleOptionClick index g s)),
      (snd (Part000.handleOptionClick index g s)).
    split; [by destruct (Part000.handleOptionClick index g s)|].
    unfold Part000.handleOptionClick, Part000.total.
    destruct (_ || _); [done|].
    by destruct (if Nat.eqb _ 0 then _ else _).
  - eexists _, _. split; [done|].
    unfold Part000.handleNext, Part000.total. by destruct (Nat.leb _ _).
  - destruct (Part000_handleRestart g s) as (shuffled & g' & _ & Hp & ->).
    eexists _, _. split; [done|]. unfold Part000.total. simpl.
    by rewrite Hp.
Qed.

Lemma Part001_handle_frame (e : Event) (g : rng) (s : Part001.App) :
  exists s' g',
    Part001.handle e g s = Some (s', g')
    /\ Part001.state s' = Part001.state s
    /\ Part001.backgrounds s' = Part001.backgrounds s
    /\ Part001.errorMessage s' = Part001.errorMessage s
    /\ Part001.questions s' ≡ₚ Part001.questions s
    /\ Part001.total s' = Part001.total s.
Proof.
  destruct e as [index| |]; simpl.
  - eexists _, _. split; [done|].
    unfold Part001.handleOptionClick, Part001.total. by destruct (_ || _).
  - eexists _, _. split; [done|].
    unfold Part001.handleNext, Part001.total. by destruct (Nat.leb _ _).
  - destruct (Part001_handleRestart g s) as (shuffled & g' & _ & Hp & ->).
    eexists _, _. split; [done|]. unfold Part001.total. simpl.
    by rewrite Hp.
Qed.

(** X10: whatever the user does, in whatever order, every event is handled,
    and the session keeps its load state, its error message, its pool of
    backgrounds and, up to their order, its questions: no handler loses,
    repeats or adds a question, or leaves [ready] or [error]. Both
    variants. *)
Theorem session_frame :
  (forall (events : list Event) (g : rng) (s : Part000.App),
     exists s' g',
       Part000.session events g s = Some (s', g')
       /\ Part000.state s' = Part000.state s
       /\ Part000.backgrounds s' = Part000.backgrounds s
       /\ Part000.errorMessage s' = Part000.errorMessage s
       /\ Part000.questions s' ≡ₚ Part000.questions s)
  /\ (forall (events : list Event) (g : rng) (s : Part001.App),
        exists s' g',
          Part001.session events g s = Some (s', g')
          /\ Part001.state s' = Part001.state s
          /\ Part001.backgrounds s' = Part001.backgrounds s
          /\ Part001.errorMessage s' = Part001.errorMessage s
          /\ Part001.questions s' ≡ₚ Part001.questions s).
Proof.
  split.
  - intros events. induction events as [|e rest IH]; intros g s.
    + by exists s, g.
    + destruct (Part000_handle_frame e g s)
        as (s1 & g1 & Hstep & Hst & Hbg & Hmsg & Hq & _).
      destruct (IH g1 s1) as (s' & g' & Hrun & Hst' & Hbg' & Hmsg' & Hq').
      exists s', g'. simpl. rewrite Hstep. simpl.
      split; [done|]. split; [congruence|]. split; [congruence|].
      split; [congruence|]. by rewrite Hq'.
  - intros events. induction events as [|e rest IH]; intros g s.
    + by exists s, g.
    + destruct (Part001_handle_frame e g s)
        as (s1 & g1 & Hstep & Hst & Hbg & Hmsg & Hq & _).
      destruct (IH g1 s1) as (s' & g' & Hrun & Hst' & Hbg' & Hmsg' & Hq').
      exists s', g'. simpl. rewrite Hstep. simpl.
      split; [done|]. split; [congruence|]. split; [congruence|].
      split; [congruence|]. by rewrite Hq'.
Qed.

Lemma pickBackground_fromPool (pool : list jsstring) (g : rng) :
  pool <> [] -> fromPool pool (fst (pickBackground pool g)).
Proof.
  intros Hne. destruct (pickBackground_elem pool g Hne) as (b & -> & Hb).
  right. by exists b.
Qed.

Lemma createBackgroundMap_fromPool (count : nat) (pool : list jsstring)
    (g : rng) :
  Forall (fromPool pool) (fst (createBackgroundMap count pool g))
  /\ (pool <> [] ->
        Forall (fun b => b <> bgNull) (fst (createBackgroundMap count pool g))).
Proof.
  destruct pool as [|p0 pool].
  - rewrite createBackgroundMap_null. simpl. split; [|done].
    apply Forall_forall. intros b Hb.
    apply elem_of_replicate in Hb as [-> _]. by left.
  - pose proof (createBackgroundMap_elems count (p0 :: pool) g ltac:(done))
      as Helems.
    split; [|intros _]; eapply Forall_impl; try exact Helems.
    + intros b (p & -> & Hp). right. by exists p.
    + by intros b (p & -> & _).
Qed.

Lemma Part000_load_invariant fetchQ fetchB (g : rng) s0 g0 :
  Part000.load fetchQ fetchB g Part000.initial = Some (s0, g0) ->
  invariant000 (Part000.backgrounds s0) s0.
Proof.
  unfold Part000.load.
  destruct (snd (loadJsonWithFallback fetchQ Part000.QUESTION_SOURCES))
    as [raw|e].
  - destruct (shuffleArray g (normalizeQuestions raw)) as [[shuffled g']|];
      [|done].
    simpl. intros [= <- <-]. unfold invariant000, Part000.total. simpl.
    split; [done|]. split; [lia|]. split; [done|]. split; [done|].
    split; [by left|]. by destruct shuffled.
  - intros [= <- <-]. unfold invariant000, Part000.total. simpl.
    split; [done|]. split; [lia|]. split; [done|]. split; [done|].
    split; [by left|]. done.
Qed.

Lemma Part000_handle_invariant (pool : list jsstring) (e : Event) (g : rng)
    (s s' : Part000.App) (g' : rng) :
  invariant000 pool s ->
  Part000.handle e g s = Some (s', g') ->
  invariant000 pool s'.
Proof.
  intros (Hpool & Hle & Hend & Himg & Hfrom & Hne).
  destruct e as [index| |]; simpl.
  - unfold Part000.handleOptionClick.
    destruct (_ || _) eqn:Hguard.
    { intros [= <- <-]. by repeat split. }
    apply Part000_click_guard in Hguard as [Hsel [q Hq]].
    apply lookup_lt_Some in Hq.
    assert (Hdraw : fromPool pool
              (fst (if Nat.eqb (length (Part000.backgrounds s)) 0
                    then (bgNull, g)
                    else pickBackground (Part000.backgrounds s) g))).
    { rewrite Hpool. destruct pool as [|p0 pool']; simpl; [by left|].
      by apply pickBackground_fromPool. }
    destruct (if Nat.eqb _ 0 then _ else _) as [image g1].
    intros [= <- <-]. unfold invariant000, Part000.total in *. simpl in *.
    split; [done|]. split; [done|]. split; [lia|]. split; [done|].
    by split.
  - intros [= <- <-]. unfold Part000.handleNext, invariant000, Part000.total
      in *.
    destruct (Nat.leb_spec (length (Part000.questions s))
                (Part000.currentIndex s + 1)); simpl.
    + split; [done|]. split; [lia|]. split; [done|]. split; [done|].
      split; [by left | done].
    + split; [done|]. split; [lia|]. split; [done|]. split; [done|].
      split; [by left | done].
  - destruct (Part000_handleRestart g s) as (shuffled & g1 & _ & Hp & ->).
    intros [= <- <-]. unfold invariant000, Part000.total in *. simpl.
    split; [done|]. split; [lia|]. split; [done|]. split; [done|].
    split; [by left|]. intros Hready Hnil. subst shuffled.
    apply Permutation_nil in Hp. by apply Hne.
Qed.

Lemma Part000_session_invariant (pool : list jsstring) (events : list Event)
    (g : rng) (s s' : Part000.App) (g' : rng) :
  invariant000 pool s ->
  Part000.session events g s = Some (s', g') ->
  invariant000 pool s'.
Proof.
  revert g s. induction events as [|e rest IH]; intros g s Hinv; simpl.
  - by intros [= <- <-].
  - destruct (Part000.handle e g s) as [[s1 g1]|] eqn:Hstep; [|done].
    simpl. apply IH. by eapply Part000_handle_invariant.
Qed.

Lemma Part000_reachable_invariant fetchQ fetchB (s : Part000.App) :
  reachable000 fetchQ fetchB s -> invariant000 (Part000.backgrounds s) s.
Proof.
  intros (g & s0 & g0 & events & g' & Hload & Hrun).
  pose proof (Part000_session_invariant _ _ _ _ _ _
                (Part000_load_invariant _ _ _ _ _ Hload) Hrun) as Hinv.
  by rewrite (proj1 Hinv).
Qed.

Lemma Part001_load_invariant fetchQ fetchB (g : rng) s0 g0 :
  Part001.load fetchQ fetchB g Part001.initial = Some (s0, g0) ->
  invariant001 (Part001.backgrounds s0) s0.
Proof.
  unfold Part001.load.
  destruct (snd (loadJsonWithFallback fetchQ Part001.QUESTION_SOURCES))
    as [raw|e].
  - destruct (shuffleArray g (normalizeQuestions raw)) as [[shuffled g1]|];
      [|done].
    simpl.
    pose proof (createBackgroundMap_length (length shuffled)
                  (loadBackgrounds fetchB Part001.BACKGROUND_SOURCES) g1)
      as Hlen.
    pose proof (createBackgroundMap_fromPool (length shuffled)
                  (loadBackgrounds fetchB Part001.BACKGROUND_SOURCES) g1)
      as [Hfrom Hnonnull].
    destruct (createBackgroundMap _ _ g1) as [bgMap g2].
    intros [= <- <-]. unfold invariant001, Part001.total. simpl in *.
    split; [done|]. split; [lia|]. split; [done|]. split; [done|].
    split; [done|]. split; [done|]. by destruct shuffled.
  - intros [= <- <-]. unfold invariant001, Part001.total. simpl.
    split; [done|]. split; [lia|]. split; [done|]. split; [done|].
    split; [constructor|]. split; [constructor | done].
Qed.

Lemma Part001_handle_invariant (pool : list jsstring) (e : Event) (g : rng)
    (s s' : Part001.App) (g' : rng) :
  invariant001 pool s ->
  Part001.handle e g s = Some (s', g') ->
  invariant001 pool s'.
Proof.
  intros (Hpool & Hle & Hend & Hlen & Hfrom & Hnonnull & Hne).
  destruct e as [index| |]; simpl.
  - unfold Part001.handleOptionClick.
    destruct (_ || _) eqn:Hguard.
    { intros [= <- <-]. by repeat split. }
    apply Part001_click_guard in Hguard as [Hsel [q Hq]].
    apply lookup_lt_Some in Hq.
    intros [= <- <-]. unfold invariant001, Part001.total in *. simpl in *.
    split; [done|]. split; [done|]. split; [lia|]. by repeat split.
  - intros [= <- <-]. unfold Part001.handleNext, invariant001, Part001.total
      in *.
    destruct (Nat.leb_spec (length (Part001.questions s))
                (Part001.currentIndex s + 1)); simpl.
    + split; [done|]. split; [lia|]. by repeat split.
    + split; [done|]. split; [lia|]. by repeat split.
  - destruct (Part001_handleRestart g s) as (shuffled & g1 & _ & Hp & ->).
    intros [= <- <-]. unfold invariant001, Part001.total in *. simpl.
    rewrite Hpool.
    pose proof (createBackgroundMap_fromPool (length shuffled) pool g1)
      as [Hfrom' Hnonnull'].
    split; [done|]. split; [lia|]. split; [done|].
    split; [apply createBackgroundMap_length|].
    split; [done|]. split; [done|]. intros Hready Hnil. subst shuffled.
    apply Permutation_nil in Hp. by apply Hne.
Qed.

Lemma Part001_session_invariant (pool : list jsstring) (events : list Event)
    (g : rng) (s s' : Part001.App) (g' : rng) :
  invariant001 pool s ->
  Part001.session events g s = Some (s', g') ->
  invariant001 pool s'.
Proof.
  revert g s. induction events as [|e rest IH]; intros g s Hinv; simpl.
  - by intros [= <- <-].
  - destruct (Part001.handle e g s) as [[s1 g1]|] eqn:Hstep; [|done].
    simpl. apply IH. by eapply Part001_handle_invariant.
Qed.

Lemma Part001_reachable_invariant fetchQ fetchB (s : Part001.App) :
  reachable001 fetchQ fetchB s -> invariant001 (Part001.backgrounds s) s.
Proof.
  intros (g & s0 & g0 & events & g' & Hload & Hrun).
  pose proof (Part001_session_invariant _ _ _ _ _ _
                (Part001_load_invariant _ _ _ _ _ Hload) Hrun) as Hinv.
  by rewrite (proj1 Hinv).
Qed.

(** X11: in every state that a page can reach (after [load], whatever the
    network answers, and any sequence of clicks) the position is at most
    the number of questions, nothing is selected at the position past the
    last question, and a ready session has at least one question. In the
    first variant the footer image is [null] while nothing is selected and
    otherwise [null] or an entry of the pool; in the second variant the
    background map has one entry per question, each of them an entry of the
    pool, or [null] when the pool is empty. *)
Theorem reachable_invariant :
  (forall fetchQ fetchB (s : Part000.App),
     reachable000 fetchQ fetchB s -> invariant000 (Part000.backgrounds s) s)
  /\ (forall fetchQ fetchB (s : Part001.App),
        reachable001 fetchQ fetchB s ->
        invariant001 (Part001.backgrounds s) s).
Proof.
  split.
  - apply Part000_reachable_invariant.
  - apply Part001_reachable_invariant.
Qed.

(** A witness of [reachable_invariant]: one question is loaded, answered
    and passed. *)
Lemma reachable_invariant_witness :
  invariant000 [js "a.png"]
    (session000 [sampleQuestion "Q1"] [js "a.png"] 1 None)
  /\ invariant001 [js "a.png"]
       (session001 [sampleQuestion "Q1"] [js "a.png"]
          [bgPath (js "a.png")] 1 None).
Proof.
  split.
  - apply (proj1 reachable_invariant (serveAll [sampleRaw " Q1 "])
             (serveAll [js "a.png"])
             (session000 [sampleQuestion "Q1"] [js "a.png"] 1 None)).
    exists [], (session000 [sampleQuestion "Q1"] [js "a.png"] 0 None), [],
      [optionClick 1; nextClick], [].
    split; vm_compute; reflexivity.
  - apply (proj2 reachable_invariant (serveAll [sampleRaw " Q1 "])
             (serveAll [js "a.png"])
             (session001 [sampleQuestion "Q1"] [js "a.png"]
                [bgPath (js "a.png")] 1 None)).
    exists [], (session001 [sampleQuestion "Q1"] [js "a.png"]
                  [bgPath (js "a.png")] 0 None), [],
      [optionClick 1; nextClick], [].
    split; vm_compute; reflexivity.
Defined.

(** X12: the image that a reachable state shows comes from the pool that was
    loaded: the footer image of the first variant is shown only with a
    selection in place and its source is the URL of an entry of the pool;
    the background style of the second variant is the URL of an entry of
    the pool and belongs to a position with a question. With an empty pool
    (or at the position past the last question, in the second variant) no
    image is shown. *)
Theorem shown_image_from_pool :
  (forall fetchQ fetchB (s : Part000.App),
     reachable000 fetchQ fetchB s ->
     (forall u, Part000.footerImageSrc s = Some u ->
        Part000.selectedIndex s <> None
        /\ exists p, p ∈ Part000.backgrounds s /\ p <> []
                     /\ u = Part000.buildBackgroundUrl p)
     /\ (Part000.backgrounds s = [] -> Part000.footerImageSrc s = None))
  /\ (forall fetchQ fetchB (s : Part001.App),
        reachable001 fetchQ fetchB s ->
        (forall u, Part001.backgroundStyle s = Some u ->
           (Part001.currentIndex s < Part001.total s)%nat
           /\ exists p, p ∈ Part001.backgrounds s /\ p <> []
                        /\ u = cssUrl (Part001.buildBackgroundUrl p))
        /\ (Part001.backgrounds s = [] -> Part001.backgroundStyle s = None)
        /\ (Part001.currentIndex s = Part001.total s ->
              Part001.backgroundStyle s = None)).
Proof.
  split.
  - intros fetchQ fetchB s Hreach.
    destruct (Part000_reachable_invariant _ _ _ Hreach)
      as (_ & _ & _ & Himg & Hfrom & _).
    assert (Hshown : forall u, Part000.footerImageSrc s = Some u ->
              Part000.selectedIndex s <> None
              /\ exists p, p ∈ Part000.backgrounds s /\ p <> []
                           /\ u = Part000.buildBackgroundUrl p).
    { intros u. unfold Part000.footerImageSrc.
      destruct (Part000.showsQuestion s && Part000.answered s) eqn:Hshow;
        [|done].
      apply andb_true_iff in Hshow as [_ Hans].
      apply bool_decide_eq_true in Hans.
      destruct Hfrom as [->|(p & -> & Hp)]; [done|].
      destruct p as [|c p]; [done|]. simpl. intros [= <-].
      split; [done|]. by exists (c :: p). }
    split; [done|]. intros Hempty.
    destruct (Part000.footerImageSrc s) as [u|] eqn:Hu; [|done].
    destruct (Hshown u eq_refl) as (_ & p & Hp & _).
    rewrite Hempty in Hp. by apply elem_of_nil in Hp.
  - intros fetchQ fetchB s Hreach.
    destruct (Part001_reachable_invariant _ _ _ Hreach)
      as (_ & _ & _ & Hlen & Hfrom & _).
    assert (Hshown : forall u, Part001.backgroundStyle s = Some u ->
              (Part001.currentIndex s < Part001.total s)%nat
              /\ exists p, p ∈ Part001.backgrounds s /\ p <> []
                           /\ u = cssUrl (Part001.buildBackgroundUrl p)).
    { intros u. unfold Part001.backgroundStyle, Part001.currentBackground,
        Part001.backgroundAt.
      destruct (Part001.backgroundMap s !! Part001.currentIndex s)
        as [b|] eqn:Hb; [|done].
      pose proof (lookup_lt_Some _ _ _ Hb) as Hlt. rewrite Hlen in Hlt.
      destruct (proj1 (Forall_lookup _ _) Hfrom _ _ Hb)
        as [->|(p & -> & Hp)]; [done|].
      destruct p as [|c p]; [done|]. simpl. intros [= <-].
      split; [done|]. by exists (c :: p). }
    split; [done|]. split.
    + intros Hempty.
      destruct (Part001.backgroundStyle s) as [u|] eqn:Hu; [|done].
      destruct (Hshown u eq_refl) as (_ & p & Hp & _).
      rewrite Hempty in Hp. by apply elem_of_nil in Hp.
    + intros Hend.
      destruct (Part001.backgroundStyle s) as [u|] eqn:Hu; [|done].
      destruct (Hshown u eq_refl) as (Hlt & _). lia.
Qed.

(** A witness of [shown_image_from_pool]: after the click on an option the
    first variant shows the image of the pool. *)
Lemma shown_image_from_pool_witness :
  Part000.selectedIndex
    (fst (Part000.handleOptionClick 1 []
            (session000 [sampleQuestion "Q1"] [js "a.png"] 0 None))) <> None
  /\ exists p, p ∈ [js "a.png"] /\ p <> []
               /\ js "./backgrounds/a.png" = Part000.buildBackgroundUrl p.
Proof.
  apply (proj1 (proj1 shown_image_from_pool (serveAll [sampleRaw " Q1 "])
                  (serveAll [js "a.png"])
                  (fst (Part000.handleOptionClick 1 []
                          (session000 [sampleQuestion "Q1"] [js "a.png"]
                             0 None)))
                  ltac:(exists [],
                          (session000 [sampleQuestion "Q1"] [js "a.png"]
                             0 None), [], [optionClick 1], [];
                        split; vm_compute; reflexivity))
           (js "./backgrounds/a.png")).
  vm_compute. reflexivity.
Defined.

(** X13: in a finished session that a page can reach, the handlers of the
    options and of the next question change nothing; only the restart
    does. Both variants. *)
Theorem finished_ignores_clicks :
  (forall fetchQ fetchB (s : Part000.App) (index : nat) (g : rng),
     reachable000 fetchQ fetchB s ->
     Part000.showsFinished s = true ->
     Part000.handleNext s = s
     /\ Part000.handleOptionClick index g s = (s, g))
  /\ (forall fetchQ fetchB (s : Part001.App) (index : nat),
        reachable001 fetchQ fetchB s ->
        Part001.showsFinished s = true ->
        Part001.handleNext s = s
        /\ Part001.handleOptionClick index s = s).
Proof.
  split.
  - intros fetchQ fetchB s index g Hreach Hfin.
    destruct (Part000_reachable_invariant _ _ _ Hreach)
      as (_ & Hle & Hend & Himg & _).
    apply andb_true_iff in Hfin as [_ Hfin].
    apply andb_true_iff in Hfin as [_ Hge]. apply Nat.leb_le in Hge.
    assert (Heq : Part000.currentIndex s = Part000.total s) by lia.
    specialize (Hend Heq). specialize (Himg Hend). split.
    + unfold Part000.handleNext.
      rewrite (proj2 (Nat.leb_le _ _)) by lia.
      rewrite <- Heq. destruct s. simpl in *. by subst.
    + apply Part000_click_ignored. right.
      apply lookup_ge_None. unfold Part000.total in *. lia.
  - intros fetchQ fetchB s index Hreach Hfin.
    destruct (Part001_reachable_invariant _ _ _ Hreach)
      as (_ & Hle & Hend & _).
    apply andb_true_iff in Hfin as [_ Hfin].
    apply andb_true_iff in Hfin as [_ Hge]. apply Nat.leb_le in Hge.
    assert (Heq : Part001.currentIndex s = Part001.total s) by lia.
    specialize (Hend Heq). split.
    + unfold Part001.handleNext.
      rewrite (proj2 (Nat.leb_le _ _)) by lia.
      rewrite <- Heq. destruct s. simpl in *. by subst.
    + apply Part001_click_ignored. right.
      apply lookup_ge_None. unfold Part001.total in *. lia.
Qed.

(** A witness of [finished_ignores_clicks]. *)
Lemma finished_ignores_clicks_witness :
  let s := session001 [sampleQuestion "Q1"] [js "a.png"]
             [bgPath (js "a.png")] 1 None in
  Part001.handleNext s = s /\ Part001.handleOptionClick 2 s = s.
Proof.
  intros s.
  apply (proj2 finished_ignores_clicks (serveAll [sampleRaw " Q1 "])
           (serveAll [js "a.png"]) s 2%nat).
  - exists [], (session001 [sampleQuestion "Q1"] [js "a.png"]
                  [bgPath (js "a.png")] 0 None), [],
      [optionClick 1; nextClick], [].
    split; vm_compute; reflexivity.
  - reflexivity.
Defined.

Lemma Part000_handleNext_position (s : Part000.App) :
  Part000.currentIndex (Part000.handleNext s)
  = (if Nat.leb (Part000.total s) (Part000.currentIndex s + 1)
     then Part000.total s else Part000.currentIndex s + 1)%nat
  /\ Part000.questions (Part000.handleNext s) = Part000.questions s.
Proof. unfold Part000.handleNext. by destruct (Nat.leb _ _). Qed.

Lemma Part001_handleNext_position (s : Part001.App) :
  Part001.currentIndex (Part001.handleNext s)
  = (if Nat.leb (Part001.total s) (Part001.currentIndex s + 1)
     then Part001.total s else Part001.currentIndex s + 1)%nat
  /\ Part001.questions (Part001.handleNext s) = Part001.questions s.
Proof. unfold Part001.handleNext. by destruct (Nat.leb _ _). Qed.

(** X14: [handleNext] called [k] times in a row, from a position that is at
    most the number of questions, leaves the session at the position
    [min (position + k) total], with the same list of questions: the session
    is finished after [total - position] calls and stays there. Both
    variants. *)
Theorem handleNext_iterated :
  (forall (k : nat) (s : Part000.App),
     (Part000.currentIndex s <= Part000.total s)%nat ->
     Part000.currentIndex (Nat.iter k Part000.handleNext s)
     = Nat.min (Part000.currentIndex s + k) (Part000.total s)
     /\ Part000.questions (Nat.iter k Part000.handleNext s)
        = Part000.questions s)
  /\ (forall (k : nat) (s : Part001.App),
        (Part001.currentIndex s <= Part001.total s)%nat ->
        Part001.currentIndex (Nat.iter k Part001.handleNext s)
        = Nat.min (Part001.currentIndex s + k) (Part001.total s)
        /\ Part001.questions (Nat.iter k Part001.handleNext s)
           = Part001.questions s).
Proof.
  split.
  - intros k s Hle. induction k as [|k [IHp IHq]].
    + simpl. split; [lia | done].
    + rewrite Nat.iter_succ.
      destruct (Part000_handleNext_position (Nat.iter k Part000.handleNext s))
        as [-> ->].
      split; [|done]. unfold Part000.total in *. rewrite IHq, IHp.
      destruct (Nat.leb_spec (length (Part000.questions s))
                  (Nat.min (Part000.currentIndex s + k)
                     (length (Part000.questions s)) + 1)); lia.
  - intros k s Hle. induction k as [|k [IHp IHq]].
    + simpl. split; [lia | done].
    + rewrite Nat.iter_succ.
      destruct (Part001_handleNext_position (Nat.iter k Part001.handleNext s))
        as [-> ->].
      split; [|done]. unfold Part001.total in *. rewrite IHq, IHp.
      destruct (Nat.leb_spec (length (Part001.questions s))
                  (Nat.min (Part001.currentIndex s + k)
                     (length (Part001.questions s)) + 1)); lia.
Qed.

(** A witness of [handleNext_iterated]: three calls on two questions. *)
Lemma handleNext_iterated_witness :
  let s := session000 [sampleQuestion "Q1"; sampleQuestion "Q2"] [] 0 None in
  Part000.currentIndex (Nat.iter 3 Part000.handleNext s) = 2%nat
  /\ Part000.questions (Nat.iter 3 Part000.handleNext s)
     = [sampleQuestion "Q1"; sampleQuestion "Q2"].
Proof.
  intros s. apply (proj1 handleNext_iterated 3%nat s). vm_compute. lia.
Defined.

(** ** The keyboard *)

Lemma jsLt_single_r (c d : N) (rest : jsstring) :
  jsLt (c :: rest) [d] = (c <? d).
Proof.
  simpl. destruct (c <? d); [done|]. destruct (d <? c); [done|].
  by destruct rest.
Qed.

Lemma jsLt_single_l (c d : N) (rest : jsstring) :
  jsLt [d] (c :: rest) =
    if d <? c then true else if c <? d then false
    else match rest with [] => false | _ :: _ => true end.
Proof. reflexivity. Qed.

Lemma keyInRange_keys (key : jsstring) :
  keyInRange key = true <->
  key = js "4" \/ exists c rest, key = c :: rest /\ 49 <= c <= 51.
Proof.
  unfold keyInRange. change (js "1") with [49]. change (js "4") with [52].
  destruct key as [|c rest].
  { simpl. split; [done|]. intros [[=]|(c & rest & [=] & _)]. }
  rewrite jsLt_single_r, jsLt_single_l.
  destruct (N.ltb_spec c 49) as [Hlo|Hlo]; simpl.
  { split; [done|]. intros [[= -> _]|(c' & rest' & [= <- _] & Hc)]; lia. }
  destruct (N.ltb_spec 52 c) as [Hhi|Hhi]; simpl.
  { split; [done|]. intros [[= -> _]|(c' & rest' & [= <- _] & Hc)]; lia. }
  destruct (N.ltb_spec c 52) as [Hlt|Hge]; simpl.
  - split; [|done]. intros _. right. exists c, rest. split; [done | lia].
  - assert (c = 52) as -> by lia. destruct rest as [|d rest]; simpl.
    + split; [|done]. intros _. by left.
    + split; [done|]. intros [[=]|(c' & rest' & [= <- _] & Hc)]. lia.
Qed.

(** X15: [handleKeyDown] takes a key (prevents the default action and calls
    [handleOptionClick]) exactly when the target of the event is not an
    input, a text area or an editable element and the key is "4" or starts
    with one of the code units "1", "2", "3"; among the keys of one code
    unit these are the digits 1 to 4. *)
Theorem keyConsumed_keys (target : option EventTarget) (key : jsstring) :
  (keyConsumed target key = true <->
     isEditable target = false
     /\ (key = js "4" \/ exists c rest, key = c :: rest /\ 49 <= c <= 51))
  /\ (forall c, key = [c] ->
        (keyConsumed target key = true <->
           isEditable target = false /\ 49 <= c <= 52))
  /\ (target = None -> isEditable target = false)
  /\ (forall t, target = Some t ->
        (isEditable target = false <->
           tagName t <> js "INPUT" /\ tagName t <> js "TEXTAREA"
           /\ isContentEditable t = false)).
Proof.
  assert (Hmain : keyConsumed target key = true <->
            isEditable target = false
            /\ (key = js "4"
                \/ exists c rest, key = c :: rest /\ 49 <= c <= 51)).
  { unfold keyConsumed.
    by rewrite andb_true_iff, negb_true_iff, keyInRange_keys. }
  split; [done|]. split; [|split].
  - intros c ->. rewrite Hmain. change (js "4") with [52]. split.
    + intros [He [[= ->]|(c' & rest & [= <- _] & Hc)]]; split; try done; lia.
    + intros [He Hc]. split; [done|].
      destruct (decide (c = 52)) as [->|Hne]; [by left|].
      right. exists c, []. split; [done | lia].
  - by intros ->.
  - intros t ->. simpl.
    rewrite !orb_false_iff, !bool_decide_eq_false. tauto.
Qed.

(** A witness of [keyConsumed_keys]: the key "2" outside any field. *)
Lemma keyConsumed_keys_witness : keyConsumed None (js "2") = true.
Proof.
  apply (proj1 (proj2 (keyConsumed_keys None (js "2"))) 50 eq_refl).
  split; [reflexivity | lia].
Defined.

Example keyConsumed_digits :
  map (keyConsumed None) [js "0"; js "1"; js "4"; js "5"; js "Enter"; js "F1"]
  = [false; true; true; false; false; false]
  /\ keyConsumed (Some {| tagName := js "INPUT"; isContentEditable := false |})
       (js "2") = false.
Proof. split; reflexivity. Qed.
